(** * Agent reliability tool: evaluation pipeline

    A shallow embedding of [agent_reliability/llm_client.py] and
    [agent_reliability/reliability_tester.py], and the properties of the
    prompt store, the judge client's chunking, the evaluation engine and the
    report aggregator.

    Python values are modelled as follows.
    - A [str] is a list of Unicode code points ([text]).  Names that the
      source writes as literals (dictionary keys, placeholders) are [string].
    - A dictionary read by key is a [gmap]; the [content] dictionary of
      [chunk_and_process], which the source iterates in insertion order, is
      an association list.
    - An [int] is a [Z].
    - Calls that leave the process (the agent, the judge's HTTP endpoint, the
      file system, the clock, standard output) are recorded in a trace of
      events; what they answer is given by an environment whose answers may
      depend on everything that happened before. *)

From Stdlib Require Import Ascii String NArith ZArith QArith.
From stdpp Require Import gmap strings list.

Open Scope string_scope.
Open Scope list_scope.

(** ** Text *)

Abbreviation text := (list N).

Definition txt (s : string) : text :=
  N_of_ascii <$> list_ascii_of_string s.

Definition is_ascii (c : N) : bool := (c <? 128)%N.

Definition ascii_isupper (c : N) : bool := (65 <=? c)%N && (c <=? 90)%N.
Definition ascii_islower (c : N) : bool := (97 <=? c)%N && (c <=? 122)%N.
Definition ascii_isdigit (c : N) : bool := (48 <=? c)%N && (c <=? 57)%N.

Definition ascii_tolower (c : N) : N :=
  if ascii_isupper c then (c + 32)%N else c.

(** The part of the Unicode character database that Python consults and that
    lies outside ASCII.  Inside ASCII the three operations are the
    definitions above; outside, they are whatever the database of the running
    interpreter says, so every result below holds for all databases. *)
Record unicode_db := {
  (** simple lower-case mapping of one code point ([_sre.unicode_tolower]) *)
  uni_tolower : N -> N;
  (** general category Nd, the characters matched by [\d] *)
  uni_isdecimal : N -> bool;
  (** [str.lower()] of a text that has a code point outside ASCII *)
  uni_lower : text -> text
}.

(** A database in which nothing outside ASCII is a digit or has a case. *)
Definition ascii_db : unicode_db :=
  {| uni_tolower := fun c => c;
     uni_isdecimal := fun _ => false;
     uni_lower := fun s => s |}.

Section Unicode.
Context (U : unicode_db).

Definition py_tolower (c : N) : N :=
  if is_ascii c then ascii_tolower c else uni_tolower U c.

Definition py_isdecimal (c : N) : bool :=
  if is_ascii c then ascii_isdigit c else uni_isdecimal U c.

(** [str.lower()] *)
Definition str_lower (s : text) : text :=
  if forallb is_ascii s then ascii_tolower <$> s else uni_lower U s.
End Unicode.

(** [str(n)] for a natural number, as used by the f-strings. *)
Definition digit_char (d : nat) : N := (48 + N.of_nat d)%N.

Fixpoint str_nat_aux (fuel n : nat) (acc : text) : text :=
  match fuel with
  | O => acc
  | S fuel' =>
      let acc' := digit_char (n mod 10) :: acc in
      if (n / 10 =? 0)%nat then acc' else str_nat_aux fuel' (n / 10) acc'
  end.

Definition str_nat (n : nat) : text := str_nat_aux (S n) n [].

Definition str_int (z : Z) : text :=
  if (z <? 0)%Z then txt "-" ++ str_nat (Z.to_nat (- z))
  else str_nat (Z.to_nat z).

(** ** Regular expressions: the fragment of [re] used by the aggregator *)

Module Re.

Inductive charclass :=
| CExact (c : N)   (* a literal without case *)
| CFold (c : N)    (* a lower-case letter, compiled under re.IGNORECASE *)
| CAny             (* .   (no re.DOTALL: anything but a newline) *)
| CDigit.          (* \d *)

Inductive regex :=
| REps
| RChar (c : charclass)
| RSeq (r1 r2 : regex)
| RLazyStar (c : charclass)   (* c*?  *)
| RPlus (c : charclass)       (* c+   *)
| ROpt (r : regex)            (* (?:r)? *)
| RGroup (r : regex).         (* (r), the only capturing group *)

(** The extra case equivalences that [re] adds for a cased literal: a
    character also matches when its lower case is one of these.  Of the
    letters that occur in the score patterns only [i] and [s] have any
    (dotless i and long s). *)
Definition case_fixes (c : N) : list N :=
  if (c =? 105)%N then [305%N]
  else if (c =? 115)%N then [383%N]
  else [].

Section Matcher.
Context (U : unicode_db).

Definition class_match (cl : charclass) (c : N) : bool :=
  match cl with
  | CExact p => (c =? p)%N
  | CFold p =>
      let l := py_tolower U c in
      (l =? p)%N || existsb (N.eqb l) (case_fixes p)
  | CAny => negb (c =? 10)%N
  | CDigit => py_isdecimal U c
  end.

Section Repeat.
Context {R : Type} (cl : charclass) (k : text -> nat -> option R).

(** [c*?]: first try to go on with nothing more consumed, then with
    one more character. *)
Fixpoint lazy_star (s : text) (pos : nat) : option R :=
  match k s pos with
  | Some r => Some r
  | None =>
      match s with
      | c :: s' => if class_match cl c then lazy_star s' (S pos) else None
      | [] => None
      end
  end.

(** [c*]: first consume as much as possible, then give back. *)
Fixpoint greedy_star (s : text) (pos : nat) : option R :=
  match s with
  | c :: s' =>
      if class_match cl c then
        match greedy_star s' (S pos) with
        | Some r => Some r
        | None => k s pos
        end
      else k s pos
  | [] => k s pos
  end.
End Repeat.

(** The backtracking matcher.  [s] is the text still to be read and
    [pos] the number of characters read since the start of the match;
    [g] holds the two marks of group 1 once it is closed; [k] is what
    remains to be matched.  The first successful path wins, as in
    [sre]. *)
Fixpoint match_here {R : Type} (r : regex) (s : text) (pos : nat)
    (g : option (nat * nat))
    (k : text -> nat -> option (nat * nat) -> option R) : option R :=
  match r with
  | REps => k s pos g
  | RChar cl =>
      match s with
      | c :: s' => if class_match cl c then k s' (S pos) g else None
      | [] => None
      end
  | RSeq r1 r2 =>
      match_here r1 s pos g
        (fun s' pos' g' => match_here r2 s' pos' g' k)
  | RLazyStar cl => lazy_star cl (fun s' pos' => k s' pos' g) s pos
  | RPlus cl =>
      match s with
      | c :: s' =>
          if class_match cl c
          then greedy_star cl (fun s'' pos'' => k s'' pos'' g) s' (S pos)
          else None
      | [] => None
      end
  | ROpt r1 =>
      match match_here r1 s pos g k with
      | Some x => Some x
      | None => k s pos g
      end
  | RGroup r1 =>
      match_here r1 s pos g
        (fun s' pos' _ => k s' pos' (Some (pos, pos')))
  end.

(** The text between two marks. *)
Definition slice (s : text) (marks : nat * nat) : text :=
  take (snd marks - fst marks) (drop (fst marks) s).

(** A match anchored at the head of [s]; the result is [group(1)]
    ([None] inside [Some] when the group took no part). *)
Definition match_at (r : regex) (s : text) : option (option text) :=
  match_here r s 0 None (fun _ _ g => Some (slice s <$> g)).

(** [re.search]: the leftmost start position at which a match exists. *)
Fixpoint search (r : regex) (s : text) : option (option text) :=
  match match_at r s with
  | Some g => Some g
  | None =>
      match s with
      | _ :: s' => search r s'
      | [] => None
      end
  end.
End Matcher.

(** A literal piece of a pattern compiled with re.IGNORECASE. *)
Definition lit_char (c : N) : regex :=
  let l := ascii_tolower c in
  RChar (if ascii_islower l then CFold l else CExact l).

Definition lit (s : string) : regex :=
  foldr (fun c r => RSeq (lit_char c) r) REps (txt s).

Fixpoint cat (rs : list regex) : regex :=
  match rs with
  | [] => REps
  | r :: rs' => RSeq r (cat rs')
  end.

End Re.

Import Re.

(** [(\d+(?:\.\d+)?)] *)
Definition number_group : regex :=
  RGroup (RSeq (RPlus CDigit)
               (ROpt (RSeq (RChar (CExact 46)) (RPlus CDigit)))).

(** The six patterns of [_combine_reports]. *)

(* overall score.*?(\d+(?:\.\d+)?)/10 *)
Definition overall_score_of_10 : regex :=
  cat [lit "overall score"; RLazyStar CAny; number_group; lit "/10"].

(* overall score.*?(\d+(?:\.\d+)?) *)
Definition overall_score : regex :=
  cat [lit "overall score"; RLazyStar CAny; number_group].

(* reliability score.*?(\d+(?:\.\d+)?)/10 *)
Definition reliability_score_of_10 : regex :=
  cat [lit "reliability score"; RLazyStar CAny; number_group; lit "/10"].

(* reliability score.*?(\d+(?:\.\d+)?) *)
Definition reliability_score : regex :=
  cat [lit "reliability score"; RLazyStar CAny; number_group].

(* score of (\d+(?:\.\d+)?)/10 *)
Definition score_of_10 : regex :=
  cat [lit "score of "; number_group; lit "/10"].

(* score of (\d+(?:\.\d+)?) *)
Definition score_of : regex :=
  cat [lit "score of "; number_group].

(** The list [score_patterns], in its order. *)
Definition score_patterns : list regex :=
  [ overall_score_of_10; overall_score;
    reliability_score_of_10; reliability_score;
    score_of_10; score_of ].

(** What an f-string shows for [score_match.group(1)]. *)
Definition group1 (g : option text) : text :=
  match g with
  | Some t => t
  | None => txt "None"
  end.

(** The loop over the patterns, with its [break]. *)
Fixpoint first_score (U : unicode_db) (pats : list regex) (report : text)
    : text :=
  match pats with
  | [] => txt "N/A"
  | p :: ps =>
      match search U p report with
      | Some g => group1 g
      | None => first_score U ps report
      end
  end.

Definition extract_score (U : unicode_db) (report : text) : text :=
  first_score U score_patterns report.

(** ** Exceptions, events and the environment *)

Inductive exn :=
| KeyError (key : string)
| IndexError
| ValueError (msg : text)
| Exception (msg : text).   (* raised by the source, or by a collaborator *)

Inductive result (A : Type) :=
| Ok (a : A)
| Raise (e : exn).
Arguments Ok {A} a.
Arguments Raise {A} e.

(** The JSON body that [generate_text] posts, and the request around it. *)
Record http_request := {
  rq_url : string;
  rq_headers : list (string * text);
  rq_model : text;
  rq_content : text;       (* messages[0].content, with role user *)
  rq_max_tokens : Z
}.

(** What [requests.post] hands back.  [rs_content] is what the provider's
    path into [response.json()] yields ([choices[0].message.content] or
    [content[0].text]), or the exception that walking it raises. *)
Record http_response := {
  rs_status_code : Z;
  rs_text : text;
  rs_content : result text
}.

(** A test prompt and the prompts document, as [yaml.safe_load] returns
    them: mappings with string values, and a mapping whose [prompts] entry
    (when there is one) is a list of test prompts. *)
Abbreviation TestPrompt := (gmap string text).
Abbreviation PromptsDoc := (gmap string (list TestPrompt)).

Inductive event :=
| EPrint (line : text)
| EQuery (query : text) (answer : result text)
| EPost (rq : http_request) (answer : result http_response)
| ESleep (seconds : Z)
| ERead (path : text) (answer : result PromptsDoc)
| EClock (now : text)
| EWrite (path : text) (content : text) (outcome : result unit).

(** The collaborators.  Each answer may depend on the whole history, so
    nothing is assumed about them: they may fail, and need not answer the
    same question the same way twice. *)
Record env := {
  (** [self.agent.execute_query(query)] *)
  agent_execute_query : list event -> text -> result text;
  (** [requests.post(url, headers=..., json=...)] *)
  requests_post : list event -> http_request -> result http_response;
  (** [open(path)] followed by [yaml.safe_load] *)
  load_yaml : list event -> text -> result PromptsDoc;
  (** [open(path, 'w')] followed by [f.write(content)] *)
  write_file : list event -> text -> text -> result unit;
  (** [time.strftime('%Y-%m-%d %H:%M:%S')] *)
  strftime : list event -> text
}.

(** ** Computations: a trace of events and a result or an exception *)

Definition M (A : Type) : Type := list event -> result A * list event.

Definition ret {A} (a : A) : M A := fun tr => (Ok a, tr).

Definition raise {A} (e : exn) : M A := fun tr => (Raise e, tr).

Definition bind {A B} (m : M A) (f : A -> M B) : M B :=
  fun tr =>
    match m tr with
    | (Ok a, tr') => f a tr'
    | (Raise e, tr') => (Raise e, tr')
    end.

Notation "x <- m ;; k" := (bind m (fun x => k))
  (at level 62, m at next level, right associativity).
Notation "m ;;; k" := (bind m (fun _ => k))
  (at level 62, right associativity).

Definition lift {A} (r : result A) : M A := fun tr => (r, tr).

(** One call to a collaborator: ask, log the question with its answer. *)
Definition call {A} (ask : list event -> result A)
    (log : result A -> event) : M A :=
  fun tr => let a := ask tr in (a, tr ++ [log a]).

Definition emit (e : event) : M unit := fun tr => (Ok tt, tr ++ [e]).

(** A [for] loop that collects one value per element. *)
Fixpoint for_each {A B} (f : A -> M B) (l : list A) : M (list B) :=
  match l with
  | [] => ret []
  | a :: l' => b <- f a ;; bs <- for_each f l' ;; ret (b :: bs)
  end.

(** ** Format strings

    A template is a format string whose replacement fields are plain names,
    which is the only kind the source writes; [Lit] holds the text between
    two fields.  [format] is [str.format] with the entries of [content] as
    keyword arguments. *)

Inductive piece :=
| Lit (s : text)
| Field (name : string).

Definition template := list piece.

Fixpoint assoc_get (name : string) (content : list (string * text))
    : option text :=
  match content with
  | [] => None
  | (k, v) :: rest => if decide (k = name) then Some v else assoc_get name rest
  end.

Fixpoint format (t : template) (content : list (string * text))
    : result text :=
  match t with
  | [] => Ok []
  | Lit s :: t' =>
      match format t' content with
      | Ok rest => Ok (s ++ rest)
      | Raise e => Raise e
      end
  | Field name :: t' =>
      match assoc_get name content with
      | None => Raise (KeyError name)
      | Some v =>
          match format t' content with
          | Ok rest => Ok (v ++ rest)
          | Raise e => Raise e
          end
      end
  end.

Definition nl : text := [10%N].

(** ** llm_client.py *)

Inductive provider_kind := OpenAI | Anthropic.

(** The string kept in [self.provider]. *)
Definition provider_name (p : provider_kind) : text :=
  match p with
  | OpenAI => txt "openai"
  | Anthropic => txt "anthropic"
  end.

(** A client that exists came out of [__init__], where every other provider
    string raises; [provider] therefore ranges over the two that pass. *)
Record LLMClient := {
  provider : provider_kind;
  model : text;
  api_key : text;
  api_url : string
}.

(** [not self.api_key], for what [os.environ.get] returns. *)
Definition missing (key : option text) : bool :=
  match key with
  | None => true
  | Some [] => true
  | Some (_ :: _) => false
  end.

Section Client.
Context (U : unicode_db).

(** [LLMClient.__init__], given [os.environ]. *)
Definition LLMClient_init (environ : gmap string text)
    (provider_arg model_arg : text) : result LLMClient :=
  let self_provider := str_lower U provider_arg in
  if decide (self_provider = txt "openai") then
    let key := environ !! "OPENAI_API_KEY" in
    if missing key then
      Raise (ValueError (txt "OPENAI_API_KEY environment variable is required"))
    else
      Ok {| provider := OpenAI; model := model_arg;
            api_key := default [] key;
            api_url := "https://api.openai.com/v1/chat/completions" |}
  else if decide (self_provider = txt "anthropic") then
    let key := environ !! "ANTHROPIC_API_KEY" in
    if missing key then
      Raise (ValueError (txt "ANTHROPIC_API_KEY environment variable is required"))
    else
      Ok {| provider := Anthropic; model := model_arg;
            api_key := default [] key;
            api_url := "https://api.anthropic.com/v1/messages" |}
  else
    Raise (ValueError (txt "Unsupported provider: " ++ provider_arg)).
End Client.

Definition default_max_tokens : Z := 4000.
Definition default_max_tokens_per_chunk : Z := 12000.

Definition request_of (self : LLMClient) (prompt : text) (max_tokens : Z)
    : http_request :=
  match provider self with
  | OpenAI =>
      {| rq_url := api_url self;
         rq_headers :=
           [("Content-Type", txt "application/json");
            ("Authorization", txt "Bearer " ++ api_key self)];
         rq_model := model self;
         rq_content := prompt;
         rq_max_tokens := max_tokens |}
  | Anthropic =>
      {| rq_url := api_url self;
         rq_headers :=
           [("Content-Type", txt "application/json");
            ("x-api-key", api_key self);
            ("anthropic-version", txt "2023-06-01")];
         rq_model := model self;
         rq_content := prompt;
         rq_max_tokens := max_tokens |}
  end.

Definition api_error (p : provider_kind) (response : http_response) : exn :=
  Exception
    ((match p with OpenAI => txt "OpenAI" | Anthropic => txt "Anthropic" end)
       ++ txt " API error (" ++ str_int (rs_status_code response) ++ txt "): "
       ++ rs_text response).

Definition summary_request : text :=
  txt "Please summarize the following content concisely while preserving all key information:"
    ++ nl ++ nl.

Definition summarized_note : text :=
  txt "Note: Some parts of the content have been summarized for processing."
    ++ nl ++ nl.

(** [len(prompt) / 4 <= max_tokens_per_chunk].  The quotient is a float in
    the source; a division by four is exact there, and Python compares a
    float with an integer exactly, so the comparison is the one between
    rationals. *)
Definition fits (prompt : text) (max_tokens_per_chunk : Z) : bool :=
  let estimated_tokens := (Z.of_nat (length prompt) # 4)%Q in
  Qle_bool estimated_tokens (inject_Z max_tokens_per_chunk).

(** [len(value) > 8000] *)
Definition is_large (value : text) : bool :=
  (8000 <? Z.of_nat (length value))%Z.

Section Judge.
Context (E : env).

(** [generate_text(prompt, max_tokens=4000)] *)
Definition generate_text (self : LLMClient) (prompt : text)
    (max_tokens : option Z) : M text :=
  let max_tokens := default default_max_tokens max_tokens in
  let rq := request_of self prompt max_tokens in
  response <- call (fun tr => requests_post E tr rq) (EPost rq) ;;
  if decide (rs_status_code response = 200%Z)
  then lift (rs_content response)
  else raise (api_error (provider self) response).

(** The body of the loop over [content.items()]. *)
Definition summarize_item (self : LLMClient) (item : string * text)
    : M (string * text) :=
  let '(key, value) := item in
  if is_large value then
    let summary_prompt := summary_request ++ value in
    summary <- generate_text self summary_prompt (Some 2000%Z) ;;
    ret (key, summary)
  else ret (key, value).

(** [chunk_and_process(prompt_template, content, max_tokens_per_chunk=12000)] *)
Definition chunk_and_process (self : LLMClient) (prompt_template : template)
    (content : list (string * text)) (max_tokens_per_chunk : option Z)
    : M text :=
  let max_tokens_per_chunk :=
    default default_max_tokens_per_chunk max_tokens_per_chunk in
  prompt <- lift (format prompt_template content) ;;
  if fits prompt max_tokens_per_chunk then
    generate_text self prompt None
  else
    summarized_content <- for_each (summarize_item self) content ;;
    summarized_prompt <- lift (format prompt_template summarized_content) ;;
    let summarized_prompt := summarized_note ++ summarized_prompt in
    generate_text self summarized_prompt None.
End Judge.

(** ** reliability_tester.py *)

Definition dq : text := [34%N].

(** The three templates of [_initialize_prompts]. *)
Definition visibility_prompt : template :=
  [ Lit (txt "
You are an expert evaluator of AI agent reliability. Your task is to evaluate the visibility of an agent's response.

Visibility means how clearly the agent explains its process, assumptions, and data sources.

Please analyze the following user query and agent response:

USER QUERY:
");
    Field "query";
    Lit (txt "

AGENT RESPONSE:
");
    Field "response";
    Lit (txt "

Evaluate the response on a scale of 1-10 for visibility, considering:
1. Does the agent clearly indicate what data sources it's using?
2. Does the agent explain its reasoning steps?
3. Does the agent make its assumptions explicit?
4. Would a user understand how conclusions were reached?
5. Does the agent provide enough context to understand the scope of its answer?
6. Is it clear what tools or functions the agent might be using?
7. If calculations were performed, are they shown or explained?
8. If there are limitations in the response, are they acknowledged?
9. Would a domain expert be able to verify the agent's work based on what's shown?
10. Does the agent show evidence of its information retrieval or generation process?

Please provide your evaluation in this format:
- Visibility Score: [1-10]
- Strengths: [list what the agent does well for visibility]
- Weaknesses: [list where the agent could improve visibility]
- Detailed Analysis: [your analysis of the visibility]
") ].

Definition repeatability_prompt : template :=
  [ Lit (txt "
You are an expert evaluator of AI agent reliability. Your task is to evaluate the repeatability of an agent's responses.

Repeatability means how consistent the agent's responses are when given the same input multiple times.

Please analyze the following user query and the 5 agent responses to that same query:

USER QUERY:
");
    Field "query";
    Lit (txt "

RESPONSE 1:
");
    Field "response_1";
    Lit (txt "

RESPONSE 2:
");
    Field "response_2";
    Lit (txt "

RESPONSE 3:
");
    Field "response_3";
    Lit (txt "

RESPONSE 4:
");
    Field "response_4";
    Lit (txt "

RESPONSE 5:
");
    Field "response_5";
    Lit (txt "

Evaluate the consistency on a scale of 1-10 for repeatability, considering:
1. Do the core answers remain the same across responses?
2. Are there any contradictions between responses?
3. If there are differences, are they explained by randomness that's part of the agent's process?
4. Do all responses use similar reasoning approaches?
5. Are data sources consistent across responses?
6. If calculations are performed, do they yield similar results?
7. Is the structure and format of responses consistent?
8. Are the steps taken by the agent consistent across responses?
9. If there are variations, would they lead to different user decisions?
10. Is the level of detail consistent across responses?

Please provide your evaluation in this format:
- Repeatability Score: [1-10]
- Consistency Analysis: [analysis of how consistent the responses are]
- Notable Differences: [highlight any important differences between responses]
- Impact Assessment: [how differences might impact user trust or decision-making]
") ].

Definition report_prompt : template :=
  [ Lit (txt "
You are an expert evaluator of AI agent reliability. Please create a comprehensive reliability report based on the visibility and repeatability evaluations.

VISIBILITY EVALUATION:
");
    Field "visibility_evaluation";
    Lit (txt "

REPEATABILITY EVALUATION:
");
    Field "repeatability_evaluation";
    Lit (txt "

Create a reliability report with these sections:
1. Executive Summary: Brief overview of the agent's reliability with an overall score out of 10 (equal weighting between visibility and repeatability).
2. Visibility Analysis: Detailed assessment of how well the agent explains its process.
3. Repeatability Analysis: Detailed assessment of the agent's consistency.
4. Key Reliability Issues: Most important problems affecting reliability.
5. Recommendations: Specific suggestions to improve the agent's reliability.
6. Conclusion: Final thoughts on trustworthiness and usability.

For the overall reliability score, calculate it as: (Visibility Score + Repeatability Score) / 2

IMPORTANT: Always clearly state the overall reliability score in this exact format: "
           ++ dq ++ txt "Overall Reliability Score: X.X/10" ++ dq
           ++ txt " (where X.X is the numerical score).

The report should be formatted in Markdown and be detailed enough to help the tester understand their agent's strengths and weaknesses.
") ].

(** The keys of [self.config] that the tester reads after construction;
    [llm_provider] and [llm_model] were read by [__init__], so they exist. *)
Record Config := {
  llm_provider : text;
  llm_model : text;
  report_path : option text
}.

(** The tester as [__init__] leaves it. *)
Record ReliabilityTester := {
  config : Config;
  llm_client : LLMClient;
  repeat_count : Z;
  max_tokens_per_call : Z
}.

(** The dictionary returned by [test_prompt]. *)
Record PromptResult := {
  pr_prompt : TestPrompt;
  pr_visibility_evaluation : text;
  pr_repeatability_evaluation : text;
  pr_report : text
}.

(** [d[key]] *)
Definition getitem (d : TestPrompt) (key : string) : result text :=
  match d !! key with
  | Some v => Ok v
  | None => Raise (KeyError key)
  end.

(** [responses[i]] for an index that is not negative *)
Definition index (responses : list text) (i : nat) : result text :=
  match responses !! i with
  | Some r => Ok r
  | None => Raise IndexError
  end.

(** [range(n)] *)
Definition range (n : Z) : list nat := seq 0 (Z.to_nat n).

Section Tester.
Context (U : unicode_db) (E : env).

Definition print (line : text) : M unit := emit (EPrint line).

Definition sleep (seconds : Z) : M unit := emit (ESleep seconds).

Definition execute_query (query : text) : M text :=
  call (fun tr => agent_execute_query E tr query) (EQuery query).

Definition time_strftime : M text :=
  fun tr => let now := strftime E tr in (Ok now, tr ++ [EClock now]).

(** [load_prompts(prompts_path)] *)
Definition load_prompts (prompts_path : text) : M (list TestPrompt) :=
  data <- call (fun tr => load_yaml E tr prompts_path) (ERead prompts_path) ;;
  ret (take 5 (default [] (data !! "prompts"))).

Definition evaluate_visibility (self : ReliabilityTester)
    (query response : text) : M text :=
  let prompt_data := [("query", query); ("response", response)] in
  chunk_and_process E (llm_client self) visibility_prompt prompt_data
    (Some (max_tokens_per_call self)).

Definition evaluate_repeatability (self : ReliabilityTester)
    (query : text) (responses : list text) : M text :=
  r1 <- lift (index responses 0) ;;
  r2 <- lift (index responses 1) ;;
  r3 <- lift (index responses 2) ;;
  r4 <- lift (index responses 3) ;;
  r5 <- lift (index responses 4) ;;
  let prompt_data :=
    [("query", query); ("response_1", r1); ("response_2", r2);
     ("response_3", r3); ("response_4", r4); ("response_5", r5)] in
  chunk_and_process E (llm_client self) repeatability_prompt prompt_data
    (Some (max_tokens_per_call self)).

Definition generate_report (self : ReliabilityTester)
    (visibility_eval repeatability_eval : text) : M text :=
  let prompt_data :=
    [("visibility_evaluation", visibility_eval);
     ("repeatability_evaluation", repeatability_eval)] in
  chunk_and_process E (llm_client self) report_prompt prompt_data
    (Some (max_tokens_per_call self)).

(** One turn of the loop [for i in range(self.repeat_count)]. *)
Definition repeat_run (self : ReliabilityTester) (query : text) (i : nat)
    : M text :=
  print (txt "    Run " ++ str_nat (i + 1) ++ txt "/"
           ++ str_int (repeat_count self) ++ txt "...") ;;;
  response <- execute_query query ;;
  sleep 1 ;;;
  ret response.

(** [test_prompt(prompt)] *)
Definition test_prompt (self : ReliabilityTester) (prompt : TestPrompt)
    : M PromptResult :=
  query <- lift (getitem prompt "text") ;;
  print (nl ++ txt "Testing prompt: "
           ++ default (txt "Unknown") (prompt !! "id")
           ++ txt " - " ++ take 50 query ++ txt "...") ;;;
  print (txt "  Testing visibility...") ;;;
  response <- execute_query query ;;
  visibility_evaluation <- evaluate_visibility self query response ;;
  print (txt "  Testing repeatability (" ++ str_int (repeat_count self)
           ++ txt " runs)...") ;;;
  responses <- for_each (repeat_run self query) (range (repeat_count self)) ;;
  repeatability_evaluation <- evaluate_repeatability self query responses ;;
  print (txt "  Generating reliability report...") ;;;
  report <- generate_report self visibility_evaluation
              repeatability_evaluation ;;
  ret {| pr_prompt := prompt;
         pr_visibility_evaluation := visibility_evaluation;
         pr_repeatability_evaluation := repeatability_evaluation;
         pr_report := report |}.

(** One row of the summary table: the body of the first loop of
    [_combine_reports]. *)
Definition summary_row (r : PromptResult) : result text :=
  let prompt_id := default (txt "Unknown") (pr_prompt r !! "id") in
  match getitem (pr_prompt r) "text" with
  | Raise e => Raise e
  | Ok text_ =>
      let prompt_desc :=
        default (take 30 text_ ++ txt "...") (pr_prompt r !! "description") in
      let score := extract_score U (pr_report r) in
      Ok (txt "| " ++ prompt_id ++ txt " | " ++ prompt_desc ++ txt " | "
            ++ score ++ txt " |" ++ nl)
  end.

(** One section per prompt: the body of the second loop. *)
Definition prompt_section (r : PromptResult) : result text :=
  let prompt_id := default (txt "Unknown") (pr_prompt r !! "id") in
  match getitem (pr_prompt r) "text" with
  | Raise e => Raise e
  | Ok text_ =>
      Ok (txt "## Prompt: " ++ prompt_id ++ nl ++ nl
            ++ txt "**Query**: " ++ text_ ++ nl ++ nl
            ++ pr_report r
            ++ nl ++ nl ++ txt "---" ++ nl ++ nl)
  end.

(** [report += f(result)] for every result, in order. *)
Fixpoint append_each (f : PromptResult -> result text)
    (results : list PromptResult) (report : text) : result text :=
  match results with
  | [] => Ok report
  | r :: rest =>
      match f r with
      | Ok piece => append_each f rest (report ++ piece)
      | Raise e => Raise e
      end
  end.

Definition report_header (self : ReliabilityTester) (now : text)
    (count : nat) : text :=
  txt "# Agent Reliability Testing Report" ++ nl ++ nl
    ++ txt "## Overview" ++ nl ++ nl
    ++ txt "- **Date**: " ++ now ++ nl
    ++ txt "- **LLM Provider**: " ++ llm_provider (config self) ++ nl
    ++ txt "- **LLM Model**: " ++ llm_model (config self) ++ nl
    ++ txt "- **Number of prompts tested**: " ++ str_nat count ++ nl ++ nl
    ++ txt "## Executive Summary" ++ nl ++ nl
    ++ txt "Below is an overview of the reliability testing results:"
    ++ nl ++ nl
    ++ txt "| Prompt ID | Prompt Description | Reliability Score |" ++ nl
    ++ txt "|-----------|-------------------|-------------------|" ++ nl.

(** [_combine_reports(results)] *)
Definition _combine_reports (self : ReliabilityTester)
    (results : list PromptResult) : M text :=
  now <- time_strftime ;;
  let report := report_header self now (length results) in
  report <- lift (append_each summary_row results report) ;;
  let report := report ++ nl in
  lift (append_each prompt_section results report).

Definition default_report_path : text := txt "agent_reliability_report.md".

(** [run_tests(prompts_path)] *)
Definition run_tests (self : ReliabilityTester) (prompts_path : text)
    : M text :=
  prompts <- load_prompts prompts_path ;;
  match prompts with
  | [] => ret (txt "Error: No prompts found in the specified file.")
  | _ :: _ =>
      print (txt "Running reliability tests on " ++ str_nat (length prompts)
               ++ txt " prompts...") ;;;
      all_results <- for_each (test_prompt self) prompts ;;
      combined_report <- _combine_reports self all_results ;;
      let report_path :=
        default default_report_path (report_path (config self)) in
      call (fun tr => write_file E tr report_path combined_report)
        (EWrite report_path combined_report) ;;;
      print (nl ++ txt "Reliability report saved to: " ++ report_path) ;;;
      ret combined_report
  end.
End Tester.

(** ** Construction of the tester *)

(** The configuration document as [yaml.safe_load] returns it: the entries
    the constructor reads, each possibly missing.  [advanced] is a mapping
    of its own. *)
Record AdvancedDoc := {
  adv_repeat_count : option Z;
  adv_max_tokens_per_call : option Z
}.

Record ConfigDoc := {
  cfg_llm_provider : option text;
  cfg_llm_model : option text;
  cfg_agent_config : option (gmap string text);
  cfg_advanced : option AdvancedDoc;
  cfg_report_path : option text
}.

(** agent_wrapper.py: the wrapper keeps the configuration it is given. *)
Record AgentWrapper := {
  agent_config : gmap string text
}.

(** [AgentWrapper.__init__(config)]: [config or {}] *)
Definition AgentWrapper_init (config : option (gmap string text))
    : AgentWrapper :=
  {| agent_config := default ∅ config |}.

(** [ReliabilityTester.__init__], given [os.environ] and what opening and
    loading the configuration file gave.  The tester and the agent wrapper
    it builds are returned side by side. *)
Definition ReliabilityTester_init (U : unicode_db)
    (environ : gmap string text) (loaded : result ConfigDoc)
    : result (ReliabilityTester * AgentWrapper) :=
  match loaded with
  | Raise e => Raise e
  | Ok cfg =>
  match cfg_llm_provider cfg with
  | None => Raise (KeyError "llm_provider")
  | Some provider_arg =>
  match cfg_llm_model cfg with
  | None => Raise (KeyError "llm_model")
  | Some model_arg =>
  match LLMClient_init U environ provider_arg model_arg with
  | Raise e => Raise e
  | Ok client =>
  let agent := AgentWrapper_init (cfg_agent_config cfg) in
  match cfg_advanced cfg with
  | None => Raise (KeyError "advanced")
  | Some advanced =>
  match adv_repeat_count advanced with
  | None => Raise (KeyError "repeat_count")
  | Some count =>
  match adv_max_tokens_per_call advanced with
  | None => Raise (KeyError "max_tokens_per_call")
  | Some budget =>
      Ok ({| config := {| llm_provider := provider_arg;
                          llm_model := model_arg;
                          report_path := cfg_report_path cfg |};
             llm_client := client;
             repeat_count := count;
             max_tokens_per_call := budget |}, agent)
  end end end end end end end.

(** ** cli.py *)

(** [str(e)], for keys that [repr] shows between single quotes as they are,
    as all keys of the source are. *)
Definition str_exn (e : exn) : text :=
  match e with
  | KeyError key => txt "'" ++ txt key ++ txt "'"
  | IndexError => txt "list index out of range"
  | ValueError msg => msg
  | Exception msg => msg
  end.

(** [try: m except Exception as e: handler(e)] *)
Definition try_except {A} (m : M A) (handler : exn -> M A) : M A :=
  fun tr =>
    match m tr with
    | (Ok a, tr') => (Ok a, tr')
    | (Raise e, tr') => handler e tr'
    end.

(** The parsed command line: the prompts file, and [--config] when given. *)
Record Args := {
  args_prompts_file : text;
  args_config : option text
}.

Definition banner_rule : text := replicate 80 61%N.

(** What [parser.parse_args()] makes of the command line.  The parser has
    the positional [prompts_file] and the option [--config]; argparse adds
    [-h] and [--help].  It returns the arguments, or it ends the process
    itself: after [-h] or [--help] it writes the help to standard output and
    exits with status 0; on a command line that it cannot parse it writes
    the usage and the error to standard error, which the trace does not
    record, and exits with status 2.  [help] is the help less its final line
    end, which [EPrint] supplies. *)
Inductive ParseResult :=
| Namespace (args : Args)
| HelpExit (help : text)
| UsageExit.

(** [main()]; the result is the exit status of the process.  [environ] is
    [os.environ] after [load_dotenv], [parse_args] is what
    [parser.parse_args()] makes of the command line of the process,
    [path_exists] is [os.path.exists] and [load_config] is the opening and
    loading of the configuration file. *)
Definition main (U : unicode_db) (E : env) (environ : gmap string text)
    (path_exists : text -> bool) (load_config : text -> result ConfigDoc)
    (parse_args : ParseResult) : M Z :=
  match parse_args with
  | HelpExit help => print help ;;; ret 0%Z
  | UsageExit => ret 2%Z
  | Namespace args =>
  let config_path := default (txt "config.yaml") (args_config args) in
  if negb (path_exists (args_prompts_file args)) then
    print (txt "Error: Prompts file not found: "
             ++ args_prompts_file args) ;;;
    ret 1%Z
  else if negb (path_exists config_path) then
    print (txt "Error: Configuration file not found: " ++ config_path) ;;;
    ret 1%Z
  else
    try_except
      (tester <- lift (ReliabilityTester_init U environ
                         (load_config config_path)) ;;
       report <- run_tests U E tester.1 (args_prompts_file args) ;;
       print (nl ++ banner_rule) ;;;
       print (txt "AGENT RELIABILITY REPORT") ;;;
       print (banner_rule ++ nl) ;;;
       print report ;;;
       ret 0%Z)
      (fun e =>
         print (txt "Error: " ++ str_exn e) ;;;
         ret 1%Z)
  end.

(** ** Vocabulary of the statements *)

(** What [generate_text] makes of the answer to its request. *)
Definition read_response (p : provider_kind) (answer : result http_response)
    : result text :=
  match answer with
  | Raise e => Raise e
  | Ok response =>
      if decide (rs_status_code response = 200%Z)
      then rs_content response
      else Raise (api_error p response)
  end.

(** The event left by the summarization call for [value]. *)
Definition summary_call (self : LLMClient) (value : text)
    (answer : result http_response) : event :=
  EPost (request_of self (summary_request ++ value) 2000) answer.

(** The event left by a call of [generate_text] that passes no cap. *)
Definition final_call (self : LLMClient) (prompt : text)
    (answer : result http_response) : event :=
  EPost (request_of self prompt default_max_tokens) answer.

(** [summarized self content calls content']: going through [content] in
    order, every large field was answered by one call of [calls] and holds
    that answer in [content']; every other field is the same in both. *)
Inductive summarized (self : LLMClient)
    : list (string * text) -> list event -> list (string * text) -> Prop :=
| summarized_nil : summarized self [] [] []
| summarized_small key value content calls content' :
    is_large value = false ->
    summarized self content calls content' ->
    summarized self ((key, value) :: content) calls ((key, value) :: content')
| summarized_large key value answer summary content calls content' :
    is_large value = true ->
    read_response (provider self) answer = Ok summary ->
    summarized self content calls content' ->
    summarized self ((key, value) :: content)
      (summary_call self value answer :: calls) ((key, summary) :: content').

(** [summarize_failed self content calls e]: the calls for the large fields
    were made in order until one of them raised [e]; it is the last of
    [calls]. *)
Inductive summarize_failed (self : LLMClient)
    : list (string * text) -> list event -> exn -> Prop :=
| failed_here key value answer e content :
    is_large value = true ->
    read_response (provider self) answer = Raise e ->
    summarize_failed self ((key, value) :: content)
      [summary_call self value answer] e
| failed_after_small key value content calls e :
    is_large value = false ->
    summarize_failed self content calls e ->
    summarize_failed self ((key, value) :: content) calls e
| failed_after_large key value answer summary content calls e :
    is_large value = true ->
    read_response (provider self) answer = Ok summary ->
    summarize_failed self content calls e ->
    summarize_failed self ((key, value) :: content)
      (summary_call self value answer :: calls) e.

(** The output cap of a request to the judge. *)
Definition post_cap (e : event) : option Z :=
  match e with
  | EPost rq _ => Some (rq_max_tokens rq)
  | _ => None
  end.

Definition repeatability_data (query r1 r2 r3 r4 r5 : text)
    : list (string * text) :=
  [("query", query); ("response_1", r1); ("response_2", r2);
   ("response_3", r3); ("response_4", r4); ("response_5", r5)].

(** The line printed at the head of turn [i] of the repeat loop. *)
Definition run_line (self : ReliabilityTester) (i : nat) : text :=
  txt "    Run " ++ str_nat (i + 1) ++ txt "/"
    ++ str_int (repeat_count self) ++ txt "...".

(** The trace of the turns [i], [i+1], ... of the repeat loop in which the
    agent, asked [query] each time, gave [responses]. *)
Fixpoint runs_events (self : ReliabilityTester) (query : text) (i : nat)
    (responses : list text) : list event :=
  match responses with
  | [] => []
  | r :: rest =>
      EPrint (run_line self i) :: EQuery query (Ok r) :: ESleep 1
        :: runs_events self query (S i) rest
  end.

(** What [test_prompt] does once the loop has filled [responses]. *)
Definition after_repeats (E : env) (self : ReliabilityTester)
    (prompt : TestPrompt) (query visibility_evaluation : text)
    (responses : list text) : M PromptResult :=
  repeatability_evaluation <- evaluate_repeatability E self query responses ;;
  print (txt "  Generating reliability report...") ;;;
  report <- generate_report E self visibility_evaluation
              repeatability_evaluation ;;
  ret {| pr_prompt := prompt;
         pr_visibility_evaluation := visibility_evaluation;
         pr_repeatability_evaluation := repeatability_evaluation;
         pr_report := report |}.

(** The trace of [test_prompt] up to the answer of the agent to the first
    query, the one whose response goes to the visibility evaluation. *)
Definition first_query_events (prompt : TestPrompt) (query : text)
    (answer : result text) : list event :=
  [EPrint (nl ++ txt "Testing prompt: "
             ++ default (txt "Unknown") (prompt !! "id")
             ++ txt " - " ++ take 50 query ++ txt "...");
   EPrint (txt "  Testing visibility...");
   EQuery query answer].

Definition repeatability_line (self : ReliabilityTester) : event :=
  EPrint (txt "  Testing repeatability (" ++ str_int (repeat_count self)
            ++ txt " runs)...").

(** Every event that [m] adds to the trace satisfies [P]. *)
Definition emits (P : event -> Prop) {A} (m : M A) : Prop :=
  forall tr, exists delta, (m tr).2 = tr ++ delta /\ Forall P delta.

Definition not_write (e : event) : Prop :=
  match e with
  | EWrite _ _ _ => False
  | _ => True
  end.

(** The path that [run_tests] writes to. *)
Definition report_file (self : ReliabilityTester) : text :=
  match report_path (config self) with
  | Some path => path
  | None => txt "agent_reliability_report.md"
  end.

Definition saved_line (self : ReliabilityTester) : event :=
  EPrint (nl ++ txt "Reliability report saved to: " ++ report_file self).

(** A successful match went through its continuation, and by then group 1
    is closed if the pattern has it outside every optional part. *)
Fixpoint has_group (r : regex) : bool :=
  match r with
  | RGroup _ => true
  | RSeq r1 r2 => has_group r1 || has_group r2
  | _ => false
  end.

(** The row that the summary table has for one result. *)
Definition row_with_score (r : PromptResult) (score row : text) : Prop :=
  exists prompt_id prompt_desc,
    row = txt "| " ++ prompt_id ++ txt " | " ++ prompt_desc ++ txt " | "
            ++ score ++ txt " |" ++ nl.

(** ** Concrete inputs *)

(** The placeholder agent of [agent_wrapper.py]. *)
Definition AgentWrapper_execute_query (query : text) : text :=
  txt "This is a dummy response for the query: " ++ query ++ nl ++ nl
    ++ txt "REASONING: I looked up information from my knowledge base."
    ++ nl ++ nl ++ txt "SOURCES: None".

Definition canned_report : text :=
  txt "## Executive Summary" ++ nl ++ nl
    ++ txt "Overall Reliability Score: 9.0/10".

Definition canned_response : http_response :=
  {| rs_status_code := 200; rs_text := []; rs_content := Ok canned_report |}.

Definition two_prompts : PromptsDoc :=
  {[ "prompts" :=
       [ {[ "id" := txt "arith"; "text" := txt "What is 2+2?" ]};
         {[ "text" := txt "Name a prime number greater than one hundred." ]} ] ]}.

(** A dummy agent, a judge with a canned answer, a document with two
    prompts. *)
Definition demo_env : env :=
  {| agent_execute_query := fun _ query => Ok (AgentWrapper_execute_query query);
     requests_post := fun _ _ => Ok canned_response;
     load_yaml := fun _ _ => Ok two_prompts;
     write_file := fun _ _ _ => Ok tt;
     strftime := fun _ => txt "2025-01-01 12:00:00" |}.

Definition demo_client : LLMClient :=
  {| provider := OpenAI; model := txt "gpt-4"; api_key := txt "sk-test";
     api_url := "https://api.openai.com/v1/chat/completions" |}.

Definition demo_tester : ReliabilityTester :=
  {| config := {| llm_provider := txt "openai"; llm_model := txt "gpt-4";
                  report_path := None |};
     llm_client := demo_client;
     repeat_count := 5;
     max_tokens_per_call := 12000 |}.

Definition demo_prompt : TestPrompt :=
  {[ "id" := txt "arith"; "text" := txt "What is 2+2?" ]}.


(** The same collaborators in front of a document without prompts. *)
Definition no_prompts_env : env :=
  {| agent_execute_query := agent_execute_query demo_env;
     requests_post := requests_post demo_env;
     load_yaml := fun _ _ => Ok ∅;
     write_file := write_file demo_env;
     strftime := strftime demo_env |}.

(** A small template, a field of 8001 characters and a short one. *)
Definition small_template : template :=
  [Lit (txt "Q: "); Field "question"; Lit (txt " A: "); Field "answer"].

Definition long_value : text := replicate (Z.to_nat 8001) 120%N.

Definition large_content : list (string * text) :=
  [("question", txt "why?"); ("answer", long_value)].

Definition small_content : list (string * text) :=
  [("question", txt "why?"); ("answer", txt "because")].

Definition score_marker : text := txt "Overall Reliability Score: 7.5/10".

(** A report with an earlier score phrase in front of the marker. *)
Definition report_with_earlier_phrase : text :=
  txt "Overall score: 3/10. " ++ score_marker.

(** An environment in which the key of the provider is set, to the empty
    string. *)
Definition environ_empty_key : gmap string text :=
  {[ "OPENAI_API_KEY" := [] ]}.

Definition large_run : result text * list event :=
  chunk_and_process demo_env demo_client small_template large_content
    (Some 100%Z) [].

Definition demo_prompt_run : result PromptResult * list event :=
  test_prompt demo_env demo_tester demo_prompt [].

Definition demo_run : result text * list event :=
  run_tests ascii_db demo_env demo_tester (txt "prompts.yaml") [].

(** ** What a trace shows *)

(** The queries put to the agent, in order. *)
Definition queries (tr : list event) : list text :=
  omap (fun e => match e with EQuery query _ => Some query | _ => None end) tr.

(** The pauses, in order. *)
Definition sleeps (tr : list event) : list Z :=
  omap (fun e => match e with ESleep seconds => Some seconds | _ => None end)
    tr.

(** The requests sent to the judge, in order. *)
Definition posts (tr : list event) : list http_request :=
  omap (fun e => match e with EPost rq _ => Some rq | _ => None end) tr.

Definition is_post (e : event) : Prop :=
  match e with
  | EPost _ _ => True
  | _ => False
  end.

Definition has_text (prompt : TestPrompt) : Prop :=
  is_Some (prompt !! "text").

(** The line that [run_tests] prints before it tests the prompts. *)
Definition running_line (prompts : list TestPrompt) : event :=
  EPrint (txt "Running reliability tests on " ++ str_nat (length prompts)
            ++ txt " prompts...").

(** What [run_tests] does once it has loaded a list of prompts that is not
    empty. *)
Definition test_all (U : unicode_db) (E : env) (self : ReliabilityTester)
    (prompts : list TestPrompt) : M text :=
  all_results <- for_each (test_prompt E self) prompts ;;
  combined_report <- _combine_reports U E self all_results ;;
  call (fun tr => write_file E tr (report_file self) combined_report)
    (EWrite (report_file self) combined_report) ;;;
  emit (saved_line self) ;;;
  ret combined_report.

(** What one returning run of [test_prompt] asked of its collaborators. *)
Definition prompt_calls (self : ReliabilityTester) (prompt : TestPrompt)
    (r : PromptResult) (delta : list event) : Prop :=
  exists query,
    prompt !! "text" = Some query
    /\ pr_prompt r = prompt
    /\ queries delta = replicate (S (Z.to_nat (repeat_count self))) query
    /\ sleeps delta = replicate (Z.to_nat (repeat_count self)) 1%Z
    /\ 3 <= length (posts delta) <= 13.

(** The first replacement field of a template, in its order, for which
    [content] has no entry. *)
Fixpoint first_missing (t : template) (content : list (string * text))
    : option string :=
  match t with
  | [] => None
  | Lit _ :: t' => first_missing t' content
  | Field name :: t' =>
      match assoc_get name content with
      | None => Some name
      | Some _ => first_missing t' content
      end
  end.

(** ** The texts of a pattern *)

(** [matches U r w]: the text [w] is one that the pattern [r] matches from
    its first to its last character. *)
Inductive matches (U : unicode_db) : regex -> text -> Prop :=
| matches_eps : matches U REps []
| matches_char cl c :
    class_match U cl c = true -> matches U (RChar cl) [c]
| matches_seq r1 r2 w1 w2 :
    matches U r1 w1 -> matches U r2 w2 -> matches U (RSeq r1 r2) (w1 ++ w2)
| matches_lazy_star cl w :
    Forall (fun c => class_match U cl c = true) w ->
    matches U (RLazyStar cl) w
| matches_plus cl c w :
    Forall (fun c => class_match U cl c = true) (c :: w) ->
    matches U (RPlus cl) (c :: w)
| matches_opt_none r : matches U (ROpt r) []
| matches_opt_some r w : matches U r w -> matches U (ROpt r) w
| matches_group r w : matches U r w -> matches U (RGroup r) w.

(** Digits, then possibly a dot and digits: the texts of the group of the
    score patterns. *)
Definition is_number (U : unicode_db) (w : text) : Prop :=
  exists whole fraction,
    w = whole ++ fraction
    /\ whole <> []
    /\ Forall (fun c => py_isdecimal U c = true) whole
    /\ (fraction = []
        \/ exists digits,
             fraction = 46%N :: digits
             /\ digits <> []
             /\ Forall (fun c => py_isdecimal U c = true) digits).

(** Every group of [r] matches texts with [P] only. *)
Fixpoint groups_hold (U : unicode_db) (P : text -> Prop) (r : regex) : Prop :=
  match r with
  | RGroup r1 => (forall w, matches U r1 w -> P w) /\ groups_hold U P r1
  | RSeq r1 r2 => groups_hold U P r1 /\ groups_hold U P r2
  | ROpt r1 => groups_hold U P r1
  | _ => True
  end.

(** The marks of group 1, when set, delimit a text with [P]. *)
Definition marks_hold (P : text -> Prop) (s0 : text) (g : option (nat * nat))
    : Prop :=
  forall marks, g = Some marks -> P (slice s0 marks).

(** Two characters that differ at most in their ASCII case. *)
Definition same_letter (c c' : N) : Prop :=
  ascii_tolower c = ascii_tolower c'.

(** The literal characters of a pattern that are compared as they are have
    no case. *)
Definition class_case_blind (cl : charclass) : Prop :=
  match cl with
  | CExact p => ascii_isupper p = false /\ ascii_islower p = false
  | _ => True
  end.

Fixpoint case_blind (r : regex) : Prop :=
  match r with
  | REps => True
  | RChar cl | RLazyStar cl | RPlus cl => class_case_blind cl
  | RSeq r1 r2 => case_blind r1 /\ case_blind r2
  | ROpt r1 | RGroup r1 => case_blind r1
  end.

(** Two captured groups that differ at most in ASCII case. *)
Definition same_group : option text -> option text -> Prop :=
  option_Forall2 (Forall2 same_letter).

(** The provider is one of the two and its key is in the environment. *)
Definition provider_ready (U : unicode_db) (environ : gmap string text)
    (provider_arg : text) : Prop :=
  (str_lower U provider_arg = txt "openai"
   /\ missing (environ !! "OPENAI_API_KEY") = false)
  \/ (str_lower U provider_arg = txt "anthropic"
      /\ missing (environ !! "ANTHROPIC_API_KEY") = false).

(** The four lines that [main] prints after a run that returned. *)
Definition report_lines (report : text) : list event :=
  [EPrint (nl ++ banner_rule); EPrint (txt "AGENT RELIABILITY REPORT");
   EPrint (banner_rule ++ nl); EPrint report].

(** A tester whose repeat count is below five. *)
Definition short_tester : ReliabilityTester :=
  {| config := config demo_tester;
     llm_client := demo_client;
     repeat_count := 3;
     max_tokens_per_call := 12000 |}.

Definition short_run : result text * list event :=
  run_tests ascii_db demo_env short_tester (txt "prompts.yaml") [].

(** A document whose only prompt has no text. *)
Definition textless_prompt : TestPrompt := {[ "id" := txt "untitled" ]}.

Definition textless_doc : PromptsDoc := {[ "prompts" := [textless_prompt] ]}.

Definition textless_env : env :=
  {| agent_execute_query := agent_execute_query demo_env;
     requests_post := requests_post demo_env;
     load_yaml := fun _ _ => Ok textless_doc;
     write_file := write_file demo_env;
     strftime := strftime demo_env |}.

Definition textless_run : result text * list event :=
  run_tests ascii_db textless_env demo_tester (txt "prompts.yaml") [].

(** The report of the run on the two prompts. *)
Definition demo_report : text :=
  match demo_run.1 with
  | Ok combined => combined
  | Raise _ => []
  end.

Definition demo_result : PromptResult :=
  {| pr_prompt := demo_prompt;
     pr_visibility_evaluation := txt "clear";
     pr_repeatability_evaluation := txt "steady";
     pr_report := canned_report |}.

Definition anthropic_environ : gmap string text :=
  {[ "ANTHROPIC_API_KEY" := txt "sk-test" ]}.

Definition anthropic_client : LLMClient :=
  {| provider := Anthropic; model := txt "claude"; api_key := txt "sk-test";
     api_url := "https://api.anthropic.com/v1/messages" |}.

(** A configuration with everything the constructor reads. *)
Definition demo_config : ConfigDoc :=
  {| cfg_llm_provider := Some (txt "Anthropic");
     cfg_llm_model := Some (txt "claude");
     cfg_agent_config := None;
     cfg_advanced :=
       Some {| adv_repeat_count := Some 5%Z;
               adv_max_tokens_per_call := Some 12000%Z |};
     cfg_report_path := None |}.

Definition demo_args : Args :=
  {| args_prompts_file := txt "prompts.yaml"; args_config := None |}.

(** ** The monad *)

Lemma bind_run {A B} (m : M A) (f : A -> M B) tr :
  bind m f tr =
  match m tr with
  | (Ok a, tr') => f a tr'
  | (Raise e, tr') => (Raise e, tr')
  end.
Proof. reflexivity. Qed.

Lemma bind_lift_ok {A B} (a : A) (f : A -> M B) tr :
  bind (lift (Ok a)) f tr = f a tr.
Proof. reflexivity. Qed.

Lemma bind_lift_raise {A B} e (f : A -> M B) tr :
  bind (lift (Raise e)) f tr = (Raise e, tr).
Proof. reflexivity. Qed.

(** ** The judge client *)

Lemma generate_text_run E self prompt max_tokens tr :
  let rq := request_of self prompt (default default_max_tokens max_tokens) in
  let answer := requests_post E tr rq in
  generate_text E self prompt max_tokens tr
  = (read_response (provider self) answer, tr ++ [EPost rq answer]).
Proof.
  unfold generate_text, read_response. cbn zeta.
  rewrite bind_run. unfold call.
  destruct (requests_post E tr _) as [response|e]; [|reflexivity].
  destruct (decide (rs_status_code response = 200%Z)); reflexivity.
Qed.

Lemma fits_le prompt budget :
  fits prompt budget = true <->
  (Z.of_nat (length prompt) # 4 <= inject_Z budget)%Q.
Proof. unfold fits. apply Qle_bool_iff. Qed.

Lemma fits_gt prompt budget :
  fits prompt budget = false <->
  (inject_Z budget < Z.of_nat (length prompt) # 4)%Q.
Proof.
  rewrite <- not_true_iff_false, fits_le. split.
  - apply Qnot_le_lt.
  - apply Qlt_not_le.
Qed.

(** The estimate compares the length with four times the budget. *)
Lemma fits_length prompt budget :
  fits prompt budget = true <-> (Z.of_nat (length prompt) <= 4 * budget)%Z.
Proof.
  rewrite fits_le. unfold Qle, inject_Z. simpl. lia.
Qed.

Lemma request_of_cap self prompt cap :
  rq_max_tokens (request_of self prompt cap) = cap.
Proof. unfold request_of. destruct (provider self); reflexivity. Qed.

Lemma request_of_content self prompt cap :
  rq_content (request_of self prompt cap) = prompt.
Proof. unfold request_of. destruct (provider self); reflexivity. Qed.

Lemma summarize_item_run E self key value tr :
  summarize_item E self (key, value) tr =
  if is_large value then
    let answer :=
      requests_post E tr (request_of self (summary_request ++ value) 2000) in
    (match read_response (provider self) answer with
     | Ok summary => Ok (key, summary)
     | Raise e => Raise e
     end, tr ++ [summary_call self value answer])
  else (Ok (key, value), tr).
Proof.
  unfold summarize_item. destruct (is_large value); [|reflexivity].
  rewrite bind_run, generate_text_run. cbn zeta.
  unfold summary_call. simpl default.
  destruct (read_response _ _); reflexivity.
Qed.

(** The loop over [content.items()]: one call per large field, in order,
    stopping at the first that fails. *)
Lemma for_each_summarize E self content :
  forall tr res tr',
    for_each (summarize_item E self) content tr = (res, tr') ->
    exists calls,
      tr' = tr ++ calls /\
      match res with
      | Ok content' => summarized self content calls content'
      | Raise e => summarize_failed self content calls e
      end.
Proof.
  induction content as [|[key value] content IH]; intros tr res tr' Hrun.
  - inversion Hrun; subst. exists []. split.
    + by rewrite app_nil_r.
    + constructor.
  - cbn [for_each] in Hrun. rewrite bind_run, summarize_item_run in Hrun.
    destruct (is_large value) eqn:Hlarge.
    + cbn zeta in Hrun.
      destruct (read_response _ _) as [summary|e] eqn:Hanswer.
      * rewrite bind_run in Hrun.
        destruct (for_each _ content _) as [[content'|e] tr1] eqn:Hrest;
          inversion Hrun; subst; clear Hrun;
          destruct (IH _ _ _ Hrest) as (calls & -> & Hcalls);
          eexists (_ :: calls); (split; [by rewrite <- app_assoc|]).
        -- by eapply summarized_large.
        -- by eapply failed_after_large.
      * inversion Hrun; subst. eexists [_]. split; [reflexivity|].
        by apply failed_here.
    + rewrite bind_run in Hrun.
      destruct (for_each _ content _) as [[content'|e] tr1] eqn:Hrest;
        inversion Hrun; subst; clear Hrun;
        destruct (IH _ _ _ Hrest) as (calls & -> & Hcalls);
        exists calls; (split; [reflexivity|]).
      * by apply summarized_small.
      * by apply failed_after_small.
Qed.

Lemma summarized_keys self content calls content' :
  summarized self content calls content' ->
  forall name, is_Some (assoc_get name content)
               -> is_Some (assoc_get name content').
Proof.
  induction 1 as [|key value content calls content' Hsmall Hrest IH
                  |key value answer summary content calls content'
                     Hlarge Hanswer Hrest IH];
    intros name Hsome; simpl in *; [done| |];
    destruct (decide (key = name)); eauto.
Qed.


Lemma summarized_caps self content calls content' :
  summarized self content calls content' ->
  Forall (fun e => post_cap e = Some 2000%Z) calls.
Proof.
  induction 1; [constructor|done|].
  constructor; [|done]. simpl. by rewrite request_of_cap.
Qed.

Lemma summarize_failed_caps self content calls e :
  summarize_failed self content calls e ->
  Forall (fun e => post_cap e = Some 2000%Z) calls.
Proof.
  induction 1; [|done|].
  - constructor; [|constructor]. simpl. by rewrite request_of_cap.
  - constructor; [|done]. simpl. by rewrite request_of_cap.
Qed.

(** A template that renders with one dictionary renders with every
    dictionary that has the same keys or more. *)
Lemma format_keys t content content' prompt :
  (forall name, is_Some (assoc_get name content)
                -> is_Some (assoc_get name content')) ->
  format t content = Ok prompt ->
  exists prompt', format t content' = Ok prompt'.
Proof.
  intros Hkeys. revert prompt.
  induction t as [|[s|name] t IH]; intros prompt Hfmt; simpl in *.
  - eauto.
  - destruct (format t content) as [rest|]; [|done].
    destruct (IH _ eq_refl) as [rest' ->]. eauto.
  - destruct (assoc_get name content) as [v|] eqn:Hv; [|done].
    destruct (Hkeys name) as [v' ->]; [by rewrite Hv|].
    destruct (format t content) as [rest|]; [|done].
    destruct (IH _ eq_refl) as [rest' ->]. eauto.
Qed.

(** The branch taken when the rendered prompt fits the budget. *)
Lemma chunk_fits E self t content budget tr prompt :
  format t content = Ok prompt ->
  fits prompt (default default_max_tokens_per_chunk budget) = true ->
  chunk_and_process E self t content budget tr
  = generate_text E self prompt None tr.
Proof.
  intros Hfmt Hfits. unfold chunk_and_process.
  rewrite Hfmt, bind_lift_ok. cbn zeta. by rewrite Hfits.
Qed.

(** The branch taken when it does not. *)
Lemma chunk_summarizes E self t content budget tr prompt res tr' :
  format t content = Ok prompt ->
  fits prompt (default default_max_tokens_per_chunk budget) = false ->
  chunk_and_process E self t content budget tr = (res, tr') ->
  (exists calls content' prompt' answer,
      summarized self content calls content' /\
      format t content' = Ok prompt' /\
      tr' = tr ++ calls
               ++ [final_call self (summarized_note ++ prompt') answer] /\
      res = read_response (provider self) answer)
  \/ (exists calls e,
      summarize_failed self content calls e /\
      tr' = tr ++ calls /\ res = Raise e).
Proof.
  intros Hfmt Hbig Hrun.
  unfold chunk_and_process in Hrun.
  rewrite Hfmt, bind_lift_ok in Hrun. cbn zeta in Hrun.
  rewrite Hbig, bind_run in Hrun.
  destruct (for_each _ content tr) as [[content'|e] tr1] eqn:Hloop;
    destruct (for_each_summarize _ _ _ _ _ _ Hloop) as (calls & -> & Hcalls).
  - left.
    destruct (format_keys t content content' prompt) as [prompt' Hfmt'];
      [by eapply summarized_keys|done|].
    rewrite Hfmt', bind_lift_ok, generate_text_run in Hrun. cbn zeta in Hrun.
    apply pair_equal_spec in Hrun as [<- <-].
    eexists calls, content', prompt', _.
    split_and!; [done|done| |reflexivity].
    by rewrite <- app_assoc.
  - right. apply pair_equal_spec in Hrun as [<- <-]. by exists calls, e.
Qed.

(** C4. When the rendered prompt fits the budget (its length divided by four
    is at most [max_tokens_per_chunk]), [chunk_and_process] is the single
    call [generate_text(prompt)]: the trace grows by exactly one request,
    whose content is the rendered template as it is, and the result is what
    that call returns. *)
Theorem chunk_and_process_within_budget E self t content budget tr prompt :
  format t content = Ok prompt ->
  (Z.of_nat (length prompt) # 4
   <= inject_Z (default default_max_tokens_per_chunk budget))%Q ->
  let rq := request_of self prompt default_max_tokens in
  let answer := requests_post E tr rq in
  chunk_and_process E self t content budget tr
  = (read_response (provider self) answer, tr ++ [EPost rq answer])
  /\ chunk_and_process E self t content budget tr
     = generate_text E self prompt None tr
  /\ rq_content rq = prompt.
Proof.
  intros Hfmt Hfits%fits_le. cbn zeta.
  pose proof (chunk_fits E self t content budget tr prompt Hfmt Hfits) as Heq.
  split_and!.
  - rewrite Heq. apply generate_text_run.
  - exact Heq.
  - apply request_of_content.
Qed.


(** C10. For a template that renders, and whatever [max_tokens_per_chunk]
    is: in the branch within the budget, [chunk_and_process] makes the one
    call of [generate_text] on the rendered prompt, and its request carries
    the default cap of 4000 tokens, no cap being passed.  In the oversized
    branch, either every summary call succeeds, and then the final call is
    made on the note and the summarized prompt, again with the cap of 4000
    tokens, after summary calls capped at 2000 tokens only, and its answer
    is the result; or a summary call fails, and then that exception is
    raised after summary calls only.  The budget is compared with the
    estimated size of the rendered prompt and decides the branch; no
    request carries it. *)
Theorem chunk_and_process_final_cap E self t content tr prompt :
  format t content = Ok prompt ->
  forall budget,
    ((Z.of_nat (length prompt) # 4
      <= inject_Z (default default_max_tokens_per_chunk budget))%Q ->
     let rq := request_of self prompt default_max_tokens in
     let answer := requests_post E tr rq in
     chunk_and_process E self t content budget tr
     = (read_response (provider self) answer, tr ++ [EPost rq answer])
     /\ rq_content rq = prompt
     /\ rq_max_tokens rq = 4000%Z)
    /\ ((inject_Z (default default_max_tokens_per_chunk budget)
         < Z.of_nat (length prompt) # 4)%Q ->
        forall res tr',
          chunk_and_process E self t content budget tr = (res, tr') ->
          (exists calls content' prompt' rq answer,
              summarized self content calls content'
              /\ Forall (fun e => post_cap e = Some 2000%Z) calls
              /\ format t content' = Ok prompt'
              /\ tr' = tr ++ calls ++ [EPost rq answer]
              /\ rq_content rq = summarized_note ++ prompt'
              /\ rq_max_tokens rq = 4000%Z
              /\ res = read_response (provider self) answer)
          \/ (exists calls e,
              summarize_failed self content calls e
              /\ Forall (fun e => post_cap e = Some 2000%Z) calls
              /\ tr' = tr ++ calls
              /\ res = Raise e)).
Proof.
  intros Hfmt budget. split.
  - intros Hfits%fits_le. cbn zeta.
    rewrite (chunk_fits E self t content budget tr prompt Hfmt Hfits).
    split_and!;
      [apply generate_text_run|apply request_of_content|apply request_of_cap].
  - intros Hbig%fits_gt res tr' Hrun.
    destruct (chunk_summarizes E self t content budget tr prompt res tr'
                Hfmt Hbig Hrun)
      as [(calls & content' & prompt' & answer & Hsum & Hfmt' & -> & ->)
         |(calls & e & Hfail & -> & ->)].
    + left.
      exists calls, content', prompt',
        (request_of self (summarized_note ++ prompt') default_max_tokens),
        answer.
      split_and!; [done|by eapply summarized_caps|done|reflexivity
                  |apply request_of_content|apply request_of_cap|done].
    + right. exists calls, e.
      split_and!; [done|by eapply summarize_failed_caps|done|done].
Qed.

(** ** Construction of the judge client *)

Lemma str_lower_ascii U s :
  forallb is_ascii s = true -> str_lower U s = ascii_tolower <$> s.
Proof. unfold str_lower. by intros ->. Qed.

Lemma missing_false key :
  missing key = false <-> exists k, key = Some k /\ k <> [].
Proof.
  destruct key as [[|c k]|]; simpl; split;
    try done; try (intros (k' & ? & ?); congruence); eauto.
Qed.

Lemma init_openai U environ provider_arg model_arg :
  str_lower U provider_arg = txt "openai" ->
  LLMClient_init U environ provider_arg model_arg =
  if missing (environ !! "OPENAI_API_KEY") then
    Raise (ValueError (txt "OPENAI_API_KEY environment variable is required"))
  else
    Ok {| provider := OpenAI; model := model_arg;
          api_key := default [] (environ !! "OPENAI_API_KEY");
          api_url := "https://api.openai.com/v1/chat/completions" |}.
Proof. intros Hlow. unfold LLMClient_init. rewrite Hlow. by case_decide. Qed.

Lemma init_anthropic U environ provider_arg model_arg :
  str_lower U provider_arg = txt "anthropic" ->
  LLMClient_init U environ provider_arg model_arg =
  if missing (environ !! "ANTHROPIC_API_KEY") then
    Raise (ValueError (txt "ANTHROPIC_API_KEY environment variable is required"))
  else
    Ok {| provider := Anthropic; model := model_arg;
          api_key := default [] (environ !! "ANTHROPIC_API_KEY");
          api_url := "https://api.anthropic.com/v1/messages" |}.
Proof.
  intros Hlow. unfold LLMClient_init. rewrite Hlow.
  case_decide; [done|]. by case_decide.
Qed.

Lemma init_unsupported U environ provider_arg model_arg :
  str_lower U provider_arg <> txt "openai" ->
  str_lower U provider_arg <> txt "anthropic" ->
  LLMClient_init U environ provider_arg model_arg
  = Raise (ValueError (txt "Unsupported provider: " ++ provider_arg)).
Proof.
  intros Hopenai Hanthropic. unfold LLMClient_init.
  case_decide; [done|]. by case_decide.
Qed.

(** The provider kept by a client is the lowered name it was built with. *)
Lemma init_provider_name U environ provider_arg model_arg self :
  LLMClient_init U environ provider_arg model_arg = Ok self ->
  provider_name (provider self) = str_lower U provider_arg
  /\ model self = model_arg.
Proof.
  unfold LLMClient_init.
  repeat case_decide; try done;
    destruct (missing _); try done; intros [= <-]; by split.
Qed.

(** C9, as the code has it.  The provider name is lowered before it is
    compared, so [OpenAI] and [ANTHROPIC] are accepted.  With a provider that
    lowers to [openai] or [anthropic], construction succeeds when the API
    key variable of that provider holds a text that is not empty, and raises
    a [ValueError] naming the variable when it is unset or empty.  With any
    other provider, construction raises [Unsupported provider].  A client
    that was constructed always sends its request: [generate_text] raises
    nothing but what the exchange with the endpoint raises. *)
Theorem LLMClient_init_provider U environ provider_arg model_arg :
  str_lower U (txt "OpenAI") = txt "openai"
  /\ str_lower U (txt "ANTHROPIC") = txt "anthropic"
  /\ (forall key,
        str_lower U provider_arg = txt "openai" ->
        environ !! "OPENAI_API_KEY" = Some key -> key <> [] ->
        LLMClient_init U environ provider_arg model_arg
        = Ok {| provider := OpenAI; model := model_arg; api_key := key;
                api_url := "https://api.openai.com/v1/chat/completions" |})
  /\ (forall key,
        str_lower U provider_arg = txt "anthropic" ->
        environ !! "ANTHROPIC_API_KEY" = Some key -> key <> [] ->
        LLMClient_init U environ provider_arg model_arg
        = Ok {| provider := Anthropic; model := model_arg; api_key := key;
                api_url := "https://api.anthropic.com/v1/messages" |})
  /\ (str_lower U provider_arg = txt "openai" ->
      missing (environ !! "OPENAI_API_KEY") = true ->
      LLMClient_init U environ provider_arg model_arg
      = Raise (ValueError
                 (txt "OPENAI_API_KEY environment variable is required")))
  /\ (str_lower U provider_arg = txt "anthropic" ->
      missing (environ !! "ANTHROPIC_API_KEY") = true ->
      LLMClient_init U environ provider_arg model_arg
      = Raise (ValueError
                 (txt "ANTHROPIC_API_KEY environment variable is required")))
  /\ (str_lower U provider_arg <> txt "openai" ->
      str_lower U provider_arg <> txt "anthropic" ->
      LLMClient_init U environ provider_arg model_arg
      = Raise (ValueError (txt "Unsupported provider: " ++ provider_arg)))
  /\ (forall E self prompt max_tokens tr,
        exists rq answer,
          generate_text E self prompt max_tokens tr
          = (read_response (provider self) answer, tr ++ [EPost rq answer])).
Proof.
  split_and!.
  - by rewrite str_lower_ascii.
  - by rewrite str_lower_ascii.
  - intros key Hlow Hkey Hne. rewrite init_openai, Hkey by done.
    by destruct key.
  - intros key Hlow Hkey Hne. rewrite init_anthropic, Hkey by done.
    by destruct key.
  - intros Hlow Hmiss. by rewrite init_openai, Hmiss.
  - intros Hlow Hmiss. by rewrite init_anthropic, Hmiss.
  - apply init_unsupported.
  - intros E self prompt max_tokens tr. eexists _, _.
    apply generate_text_run.
Qed.

Lemma LLMClient_init_provider_witness :
  LLMClient_init ascii_db {[ "ANTHROPIC_API_KEY" := txt "sk-test" ]}
    (txt "ANTHROPIC") (txt "claude")
  = Ok {| provider := Anthropic; model := txt "claude";
          api_key := txt "sk-test";
          api_url := "https://api.anthropic.com/v1/messages" |}.
Proof.
  apply (LLMClient_init_provider ascii_db
           {[ "ANTHROPIC_API_KEY" := txt "sk-test" ]}
           (txt "ANTHROPIC") (txt "claude")); [reflexivity|reflexivity|done].
Defined.

(** C9 as it was stated fails: the variable is set and the provider is
    [OpenAI], yet construction raises. *)
Lemma LLMClient_init_empty_key :
  str_lower ascii_db (txt "OpenAI") = txt "openai"
  /\ is_Some (environ_empty_key !! "OPENAI_API_KEY")
  /\ LLMClient_init ascii_db environ_empty_key (txt "OpenAI") (txt "gpt-4")
     = Raise (ValueError
                (txt "OPENAI_API_KEY environment variable is required")).
Proof. split_and!; [reflexivity|by eexists|reflexivity]. Qed.

(** ** The prompt store *)

Lemma load_prompts_run E prompts_path tr :
  load_prompts E prompts_path tr =
  let answer := load_yaml E tr prompts_path in
  (match answer with
   | Ok data => Ok (take 5 (default [] (data !! "prompts")))
   | Raise e => Raise e
   end, tr ++ [ERead prompts_path answer]).
Proof.
  unfold load_prompts. rewrite bind_run. unfold call. cbn zeta.
  by destruct (load_yaml E tr prompts_path).
Qed.

Lemma lookup_take_five {A} (entries : list A) i :
  take 5 entries !! i = if decide (i < 5) then entries !! i else None.
Proof.
  case_decide.
  - by apply lookup_take_lt.
  - apply lookup_take_ge. lia.
Qed.

(** C5. [load_prompts] reads the document and returns the first five
    entries of its [prompts] list, or all of them when there are fewer: at
    each position below 5 the entry of the document at that position, as it
    is, and nothing at position 5 or beyond.  A document without the
    [prompts] key gives the empty list. *)
Theorem load_prompts_first_five E prompts_path tr doc :
  load_yaml E tr prompts_path = Ok doc ->
  exists loaded,
    load_prompts E prompts_path tr
    = (Ok loaded, tr ++ [ERead prompts_path (Ok doc)])
    /\ length loaded <= 5
    /\ (forall i, loaded !! i
                  = if decide (i < 5) then default [] (doc !! "prompts") !! i
                    else None)
    /\ (doc !! "prompts" = None -> loaded = []).
Proof.
  intros Hdoc. exists (take 5 (default [] (doc !! "prompts"))).
  split_and!.
  - by rewrite load_prompts_run, Hdoc.
  - rewrite length_take. lia.
  - apply lookup_take_five.
  - by intros ->.
Qed.

(** ** The evaluation engine *)

(** C6. When the document has no [prompts] key, or an empty list under it,
    [run_tests] returns its error message and the only thing that happened
    is the reading of the document: the agent was not queried, the judge
    was not called, and no file was written. *)
Theorem run_tests_no_prompts U E self prompts_path tr doc :
  load_yaml E tr prompts_path = Ok doc ->
  doc !! "prompts" = None \/ doc !! "prompts" = Some [] ->
  run_tests U E self prompts_path tr
  = (Ok (txt "Error: No prompts found in the specified file."),
     tr ++ [ERead prompts_path (Ok doc)]).
Proof.
  intros Hdoc Hempty. unfold run_tests.
  rewrite bind_run, load_prompts_run, Hdoc. cbn zeta.
  by destruct Hempty as [-> | ->].
Qed.

Lemma summarize_failed_calls self content calls e :
  summarize_failed self content calls e -> calls <> [].
Proof. induction 1; done. Qed.

Lemma app_eq_self {A} (l k : list A) : l ++ k = l -> k = [].
Proof. intros H. apply (app_inv_head l). by rewrite app_nil_r. Qed.

(** A run of [chunk_and_process] whose template renders leaves a trace. *)
Lemma chunk_and_process_calls E self t content budget tr prompt res :
  format t content = Ok prompt ->
  chunk_and_process E self t content budget tr <> (res, tr).
Proof.
  intros Hfmt Hrun.
  destruct (fits prompt (default default_max_tokens_per_chunk budget))
    eqn:Hfits.
  - rewrite (chunk_fits E self t content budget tr prompt Hfmt Hfits),
      generate_text_run in Hrun.
    cbn zeta in Hrun. apply pair_equal_spec in Hrun as [_ Htr].
    by apply app_eq_self in Htr.
  - destruct (chunk_summarizes E self t content budget tr prompt res tr
                Hfmt Hfits Hrun)
      as [(calls & content' & prompt' & answer & _ & _ & Htr & _)
         |(calls & e & Hfail & Htr & _)].
    + symmetry in Htr. apply app_eq_self in Htr. by destruct calls.
    + symmetry in Htr. apply app_eq_self in Htr.
      apply summarize_failed_calls in Hfail. congruence.
Qed.

Lemma repeatability_prompt_renders query r1 r2 r3 r4 r5 :
  exists prompt,
    format repeatability_prompt (repeatability_data query r1 r2 r3 r4 r5)
    = Ok prompt.
Proof.
  assert (exists p, format repeatability_prompt
                      (repeatability_data [] [] [] [] [] []) = Ok p)
    as [p Hp] by (vm_compute; eauto).
  eapply format_keys; [|exact Hp].
  intros name. unfold repeatability_data. simpl.
  repeat case_decide; eauto.
Qed.

Lemma evaluate_repeatability_five E self query r1 r2 r3 r4 r5 rest tr :
  evaluate_repeatability E self query (r1 :: r2 :: r3 :: r4 :: r5 :: rest) tr
  = chunk_and_process E (llm_client self) repeatability_prompt
      (repeatability_data query r1 r2 r3 r4 r5)
      (Some (max_tokens_per_call self)) tr.
Proof. reflexivity. Qed.

Lemma evaluate_repeatability_short E self query responses tr :
  length responses < 5 ->
  evaluate_repeatability E self query responses tr = (Raise IndexError, tr).
Proof.
  intros Hlen.
  destruct responses as [|r1 [|r2 [|r3 [|r4 [|r5 rest]]]]];
    try reflexivity.
  simpl in Hlen. lia.
Qed.

(** C7. [evaluate_repeatability] raises the index error, with nothing
    called, exactly when it is given fewer than five responses.  Given five
    or more it renders the repeatability template, which has the five
    fields [response_1] to [response_5], with the first five responses, and
    hands the rendering to the judge client. *)
Theorem evaluate_repeatability_needs_five E self query responses tr :
  (length responses < 5 ->
   evaluate_repeatability E self query responses tr = (Raise IndexError, tr))
  /\ (evaluate_repeatability E self query responses tr = (Raise IndexError, tr)
      -> length responses < 5)
  /\ (forall r1 r2 r3 r4 r5 rest,
        responses = r1 :: r2 :: r3 :: r4 :: r5 :: rest ->
        (exists prompt,
            format repeatability_prompt
              (repeatability_data query r1 r2 r3 r4 r5) = Ok prompt)
        /\ evaluate_repeatability E self query responses tr
           = chunk_and_process E (llm_client self) repeatability_prompt
               (repeatability_data query r1 r2 r3 r4 r5)
               (Some (max_tokens_per_call self)) tr).
Proof.
  split_and!.
  - apply evaluate_repeatability_short.
  - intros Hrun.
    destruct responses as [|r1 [|r2 [|r3 [|r4 [|r5 rest]]]]];
      simpl; try lia.
    rewrite evaluate_repeatability_five in Hrun.
    destruct (repeatability_prompt_renders query r1 r2 r3 r4 r5)
      as [prompt Hfmt].
    by eapply chunk_and_process_calls in Hrun.
  - intros r1 r2 r3 r4 r5 rest ->.
    split; [apply repeatability_prompt_renders|reflexivity].
Qed.

Lemma repeat_run_run E self query i tr :
  repeat_run E self query i tr =
  let tr1 := tr ++ [EPrint (run_line self i)] in
  let answer := agent_execute_query E tr1 query in
  match answer with
  | Ok r => (Ok r, tr ++ [EPrint (run_line self i); EQuery query (Ok r);
                          ESleep 1])
  | Raise e => (Raise e, tr ++ [EPrint (run_line self i);
                                EQuery query (Raise e)])
  end.
Proof.
  unfold repeat_run, print, sleep, emit, execute_query, call.
  rewrite !bind_run. cbn zeta. fold (run_line self i).
  destruct (agent_execute_query E _ query) as [r|e].
  - rewrite !bind_run. unfold ret. by rewrite <- !app_assoc.
  - by rewrite <- !app_assoc.
Qed.

(** The repeat loop: [n] turns give [n] responses, each the answer of the
    agent to [query]; a turn in which the agent raises ends the loop. *)
Lemma repeat_loop E self query n :
  forall i tr res tr',
    for_each (repeat_run E self query) (seq i n) tr = (res, tr') ->
    (exists responses,
        res = Ok responses /\ length responses = n /\
        tr' = tr ++ runs_events self query i responses)
    \/ (exists responses e,
        res = Raise e /\ length responses < n /\
        tr' = tr ++ runs_events self query i responses
                 ++ [EPrint (run_line self (i + length responses));
                     EQuery query (Raise e)]).
Proof.
  induction n as [|n IH]; intros i tr res tr' Hrun.
  - inversion Hrun; subst. left. exists []. by rewrite app_nil_r.
  - cbn [seq for_each] in Hrun.
    rewrite bind_run, repeat_run_run in Hrun. cbn zeta in Hrun.
    destruct (agent_execute_query E _ query) as [r|e].
    + rewrite bind_run in Hrun.
      destruct (for_each _ (seq (S i) n) _) as [[rs|e] tr1] eqn:Hrest;
        inversion Hrun; subst; clear Hrun;
        destruct (IH _ _ _ _ Hrest)
          as [(responses & Hres & Hlen & ->)
             |(responses & e' & Hres & Hlen & ->)];
        try discriminate.
      * left. inversion Hres; subst. exists (r :: responses).
        split_and!; [done|done|]. by rewrite <- app_assoc.
      * right. inversion Hres; subst. exists (r :: responses), e'.
        split_and!; [done|simpl; lia|].
        rewrite <- app_assoc. simpl.
        by replace (i + S (length responses)) with (S i + length responses)
          by lia.
    + inversion Hrun; subst. right. exists [], e.
      split_and!; [done|simpl; lia|]. simpl.
      by replace (i + 0) with i by lia.
Qed.


(** ** What a computation can leave in the trace *)

Section Emits.
Context (P : event -> Prop).

Lemma emits_ret {A} (a : A) : emits P (ret a).
Proof. intros tr. exists []. by rewrite app_nil_r. Qed.

Lemma emits_raise {A} e : emits P (@raise A e).
Proof. intros tr. exists []. by rewrite app_nil_r. Qed.

Lemma emits_lift {A} (r : result A) : emits P (lift r).
Proof. intros tr. exists []. by rewrite app_nil_r. Qed.

Lemma emits_emit e : P e -> emits P (emit e).
Proof. intros He tr. exists [e]. split; [done|]. by constructor. Qed.

Lemma emits_call {A} (ask : list event -> result A) log :
  (forall a, P (log a)) -> emits P (call ask log).
Proof. intros Hlog tr. eexists [_]. split; [done|]. by constructor. Qed.

Lemma emits_bind {A B} (m : M A) (f : A -> M B) :
  emits P m -> (forall a, emits P (f a)) -> emits P (bind m f).
Proof.
  intros Hm Hf tr. rewrite bind_run.
  destruct (Hm tr) as (d1 & Htr1 & Hd1).
  destruct (m tr) as [[a|e] tr1]; simpl in Htr1; subst tr1.
  - destruct (Hf a (tr ++ d1)) as (d2 & Htr2 & Hd2).
    exists (d1 ++ d2). rewrite Htr2, app_assoc. split; [done|].
    by apply Forall_app.
  - by exists d1.
Qed.

Lemma emits_for_each {A B} (f : A -> M B) l :
  (forall a, emits P (f a)) -> emits P (for_each f l).
Proof.
  intros Hf. induction l as [|a l IH]; simpl.
  - apply emits_ret.
  - apply emits_bind; [done|]. intros b.
    apply emits_bind; [done|]. intros bs. apply emits_ret.
Qed.
End Emits.

Ltac emits_step :=
  lazymatch goal with
  | |- emits _ (bind _ _) => apply emits_bind; [|intros ?]
  | |- emits _ (for_each _ _) => apply emits_for_each; intros ?
  | |- emits _ (ret _) => apply emits_ret
  | |- emits _ (raise _) => apply emits_raise
  | |- emits _ (lift _) => apply emits_lift
  | |- emits _ (emit _) => apply emits_emit; exact I
  | |- emits _ (call _ _) => apply emits_call; intros ?; exact I
  end.

Lemma generate_text_no_write E self prompt cap :
  emits not_write (generate_text E self prompt cap).
Proof.
  unfold generate_text. cbn zeta. repeat emits_step.
  case_decide; emits_step.
Qed.

Lemma chunk_and_process_no_write E self t content budget :
  emits not_write (chunk_and_process E self t content budget).
Proof.
  unfold chunk_and_process. cbn zeta. repeat emits_step.
  destruct (fits _ _); [apply generate_text_no_write|].
  repeat emits_step; [|apply generate_text_no_write].
  unfold summarize_item.
  match goal with |- context [let '(_, _) := ?item in _] =>
    destruct item as [key value] end.
  destruct (is_large value); repeat emits_step.
  apply generate_text_no_write.
Qed.

Lemma test_prompt_no_write E self prompt :
  emits not_write (test_prompt E self prompt).
Proof.
  unfold test_prompt, print, execute_query. repeat emits_step.
  - apply chunk_and_process_no_write.
  - unfold repeat_run, print, sleep, execute_query. repeat emits_step.
  - unfold evaluate_repeatability. repeat emits_step.
    apply chunk_and_process_no_write.
  - apply chunk_and_process_no_write.
Qed.

Lemma time_strftime_no_write E : emits not_write (time_strftime E).
Proof. intros tr. eexists [_]. split; [reflexivity|]. by constructor. Qed.

Lemma combine_reports_no_write U E self results :
  emits not_write (_combine_reports U E self results).
Proof.
  unfold _combine_reports. repeat emits_step.
  apply time_strftime_no_write.
Qed.

Lemma emits_run {A} P (m : M A) tr res tr' :
  emits P m -> m tr = (res, tr') ->
  exists delta, tr' = tr ++ delta /\ Forall P delta.
Proof. intros Hm Hrun. specialize (Hm tr). by rewrite Hrun in Hm. Qed.

Lemma run_tests_unfold U E self prompts_path tr doc prompts :
  load_yaml E tr prompts_path = Ok doc ->
  take 5 (default [] (doc !! "prompts")) = prompts ->
  prompts <> [] ->
  run_tests U E self prompts_path tr
  = test_all U E self prompts
      (tr ++ [ERead prompts_path (Ok doc); running_line prompts]).
Proof.
  intros Hdoc Hprompts Hne. unfold run_tests.
  rewrite bind_run, load_prompts_run, Hdoc. cbv beta iota zeta.
  rewrite Hprompts. destruct prompts as [|p prompts]; [done|].
  unfold print at 1. rewrite bind_run. unfold emit at 1.
  rewrite <- app_assoc. reflexivity.
Qed.


(** ** The report aggregator *)

(** A pattern fails wherever it fails with a continuation that fails less
    often: what follows a piece of a pattern can only remove matches. *)
Lemma lazy_star_none U {R1 R2} cl
    (k1 : text -> nat -> option R1) (k2 : text -> nat -> option R2) :
  (forall s pos, k1 s pos = None -> k2 s pos = None) ->
  forall s pos,
    lazy_star U cl k1 s pos = None -> lazy_star U cl k2 s pos = None.
Proof.
  intros Hk. induction s as [|c s IH]; intros pos; simpl.
  - destruct (k1 [] pos) eqn:H1; [done|]. by rewrite (Hk _ _ H1).
  - destruct (k1 (c :: s) pos) eqn:H1; [done|]. rewrite (Hk _ _ H1).
    destruct (class_match U cl c); [apply IH|done].
Qed.

Lemma greedy_star_none U {R1 R2} cl
    (k1 : text -> nat -> option R1) (k2 : text -> nat -> option R2) :
  (forall s pos, k1 s pos = None -> k2 s pos = None) ->
  forall s pos,
    greedy_star U cl k1 s pos = None -> greedy_star U cl k2 s pos = None.
Proof.
  intros Hk. induction s as [|c s IH]; intros pos; simpl.
  - apply Hk.
  - destruct (class_match U cl c); [|apply Hk].
    destruct (greedy_star U cl k1 s (S pos)) eqn:H1; [done|].
    rewrite (IH _ H1). apply Hk.
Qed.

Lemma match_here_none U r :
  forall {R1 R2} (k1 : text -> nat -> option (nat * nat) -> option R1)
         (k2 : text -> nat -> option (nat * nat) -> option R2),
    (forall s pos g, k1 s pos g = None -> k2 s pos g = None) ->
    forall s pos g,
      match_here U r s pos g k1 = None -> match_here U r s pos g k2 = None.
Proof.
  induction r as [|cl|r1 IH1 r2 IH2|cl|cl|r1 IH1|r1 IH1];
    intros R1 R2 k1 k2 Hk s pos g; simpl.
  - apply Hk.
  - destruct s as [|c s]; [done|].
    destruct (class_match U cl c); [apply Hk|done].
  - apply IH1. intros s' pos' g'. by apply IH2.
  - apply lazy_star_none. intros s' pos'. apply Hk.
  - destruct s as [|c s]; [done|].
    destruct (class_match U cl c); [|done].
    apply greedy_star_none. intros s' pos'. apply Hk.
  - destruct (match_here U r1 s pos g k1) eqn:H1; [done|].
    rewrite (IH1 _ _ k1 k2 Hk _ _ _ H1). apply Hk.
  - apply IH1. intros s' pos' g'. apply Hk.
Qed.

(** A pattern that starts with [r1] matches only where [r1] does. *)
Lemma match_at_seq_none U r1 r2 s :
  match_at U r1 s = None -> match_at U (RSeq r1 r2) s = None.
Proof.
  unfold match_at. simpl. apply match_here_none. done.
Qed.

Lemma search_seq_none U r1 r2 s :
  search U r1 s = None -> search U (RSeq r1 r2) s = None.
Proof.
  induction s as [|c s IH]; simpl.
  - destruct (match_at U r1 []) eqn:H1; [done|].
    by rewrite (match_at_seq_none _ _ _ _ H1).
  - destruct (match_at U r1 (c :: s)) eqn:H1; [done|].
    by rewrite (match_at_seq_none _ _ _ _ H1).
Qed.

(** [re.search] goes past the positions at which nothing matches. *)
Lemma search_drop U r n :
  forall s,
    (forall k, k < n -> match_at U r (drop k s) = None) ->
    search U r s = search U r (drop n s).
Proof.
  induction n as [|n IH]; intros s Hnone; [done|].
  destruct s as [|c s]; [done|].
  cbn [search]. pose proof (Hnone 0 ltac:(lia)) as H0.
  simpl drop in H0. rewrite H0. simpl drop.
  apply IH. intros k Hk. apply (Hnone (S k)). lia.
Qed.

(** The loop over the patterns stops at the first that matches. *)
Lemma first_score_first_match U report pats :
  forall i p g,
    pats !! i = Some p ->
    search U p report = Some g ->
    (forall j q, j < i -> pats !! j = Some q -> search U q report = None) ->
    first_score U pats report = group1 g.
Proof.
  induction pats as [|p0 pats IH]; intros i p g Hi Hmatch Hbefore; [done|].
  destruct i as [|i]; simpl in *.
  - inversion Hi; subst. by rewrite Hmatch.
  - rewrite (Hbefore 0 p0) by (done || lia).
    apply (IH i p g); [done|done|].
    intros j q Hj Hq. apply (Hbefore (S j) q); [lia|done].
Qed.

Lemma first_score_no_match U report pats :
  (forall p, p ∈ pats -> search U p report = None) ->
  first_score U pats report = txt "N/A".
Proof.
  induction pats as [|p0 pats IH]; intros Hnone; [done|]. simpl.
  rewrite (Hnone p0) by constructor.
  apply IH. intros p Hp. apply Hnone. by constructor.
Qed.

Lemma lazy_star_some U {R} cl (k : text -> nat -> option R) x :
  forall s pos,
    lazy_star U cl k s pos = Some x -> exists s' pos', k s' pos' = Some x.
Proof.
  induction s as [|c s IH]; intros pos; simpl.
  - destruct (k [] pos) eqn:Hk; [|done]. intros [= <-]. eauto.
  - destruct (k (c :: s) pos) eqn:Hk; [intros [= <-]; eauto|].
    destruct (class_match U cl c); [apply IH|done].
Qed.

Lemma greedy_star_some U {R} cl (k : text -> nat -> option R) x :
  forall s pos,
    greedy_star U cl k s pos = Some x -> exists s' pos', k s' pos' = Some x.
Proof.
  induction s as [|c s IH]; intros pos; simpl; [eauto|].
  destruct (class_match U cl c); [|eauto].
  destruct (greedy_star U cl k s (S pos)) eqn:Hrest; [|eauto].
  intros [= <-]. eauto.
Qed.

Lemma match_here_some U r :
  forall {R} (k : text -> nat -> option (nat * nat) -> option R) s pos g x,
    match_here U r s pos g k = Some x ->
    exists s' pos' g',
      k s' pos' g' = Some x /\
      (is_Some g \/ has_group r = true -> is_Some g').
Proof.
  induction r as [|cl|r1 IH1 r2 IH2|cl|cl|r1 IH1|r1 IH1];
    intros R k s pos g x; simpl.
  - intros Hk. exists s, pos, g. split; [done|]. by intros [?|?].
  - destruct s as [|c s]; [done|].
    destruct (class_match U cl c); [|done].
    intros Hk. exists s, (S pos), g. split; [done|]. by intros [?|?].
  - intros H1. apply IH1 in H1 as (s1 & pos1 & g1 & H2 & Hg1).
    apply IH2 in H2 as (s2 & pos2 & g2 & Hk & Hg2).
    exists s2, pos2, g2. split; [done|].
    intros [Hg|[Hr1|Hr2]%orb_true_iff]; apply Hg2; auto.
  - intros (s' & pos' & Hk)%lazy_star_some.
    exists s', pos', g. split; [done|]. by intros [?|?].
  - destruct s as [|c s]; [done|].
    destruct (class_match U cl c); [|done].
    intros (s' & pos' & Hk)%greedy_star_some.
    exists s', pos', g. split; [done|]. by intros [?|?].
  - destruct (match_here U r1 s pos g k) eqn:H1.
    + intros [= <-]. apply IH1 in H1 as (s1 & pos1 & g1 & Hk & Hg1).
      exists s1, pos1, g1. split; [done|]. intros [?|?]; [auto|done].
    + intros Hk. exists s, pos, g. split; [done|]. by intros [?|?].
  - intros H1. apply IH1 in H1 as (s1 & pos1 & g1 & Hk & _).
    eexists s1, pos1, _. split; [done|]. eauto.
Qed.

Lemma match_at_group U r s g :
  has_group r = true -> match_at U r s = Some g -> is_Some g.
Proof.
  intros Hr (s' & pos' & g' & Hk & Hg)%match_here_some.
  destruct Hg as [marks ->]; [by right|].
  inversion Hk. by eexists.
Qed.

Lemma search_group U r s g :
  has_group r = true -> search U r s = Some g -> is_Some g.
Proof.
  intros Hr. induction s as [|c s IH]; simpl;
    destruct (match_at U r _) eqn:Hat;
    try (intros [= <-]; by eapply match_at_group); done.
Qed.

Lemma score_patterns_group p : p ∈ score_patterns -> has_group p = true.
Proof.
  unfold score_patterns. rewrite !elem_of_cons, elem_of_nil.
  intros [->|[->|[->|[->|[->|[->|[]]]]]]]; reflexivity.
Qed.

Lemma append_each_concat f results :
  forall report out,
    append_each f results report = Ok out ->
    exists pieces,
      Forall2 (fun r piece => f r = Ok piece) results pieces
      /\ out = report ++ concat pieces.
Proof.
  induction results as [|r results IH]; intros report out; simpl.
  - intros [= <-]. exists []. split; [constructor|]. by rewrite app_nil_r.
  - destruct (f r) as [piece|e] eqn:Hr; [|done].
    intros (pieces & Hpieces & ->)%IH. exists (piece :: pieces).
    split; [by constructor|]. simpl. by rewrite <- app_assoc.
Qed.

Lemma summary_row_score U r row :
  summary_row U r = Ok row ->
  row_with_score r (extract_score U (pr_report r)) row.
Proof.
  unfold summary_row. destruct (getitem _ _) as [text_|e]; [|done].
  intros [= <-]. by eexists _, _.
Qed.

(** The combined report: the header, one row per result, an empty line,
    one section per result. *)
Lemma combine_reports_table U E self results tr combined tr' :
  _combine_reports U E self results tr = (Ok combined, tr') ->
  exists rows sections,
    Forall2 (fun r row =>
               row_with_score r (extract_score U (pr_report r)) row)
      results rows
    /\ Forall2 (fun r section => prompt_section r = Ok section)
         results sections
    /\ combined
       = report_header self (strftime E tr) (length results)
           ++ concat rows ++ nl ++ concat sections.
Proof.
  unfold _combine_reports, time_strftime. rewrite bind_run.
  cbv beta iota zeta. rewrite bind_run. unfold lift at 1.
  destruct (append_each (summary_row U) results _) as [table|e] eqn:Hrows;
    [|done].
  unfold lift.
  destruct (append_each prompt_section results _) as [out|e] eqn:Hsections;
    [|done].
  intros [= <- <-].
  apply append_each_concat in Hrows as (rows & Hrows & ->).
  apply append_each_concat in Hsections as (sections & Hsections & ->).
  exists rows, sections. split_and!; [|done|by rewrite <- !app_assoc].
  eapply Forall2_impl; [done|]. intros r row. apply summary_row_score.
Qed.

(** A report in which the marker is the first score phrase. *)
Lemma extract_score_marker U pre suf :
  search U (lit "overall score") (pre ++ score_marker ++ suf) = None ->
  (forall k, k < length pre + 8 ->
     match_at U (lit "reliability score")
       (drop k (pre ++ score_marker ++ suf)) = None) ->
  extract_score U (pre ++ score_marker ++ suf) = txt "7.5".
Proof.
  intros Hoverall Hbefore.
  unfold extract_score, score_patterns. cbn [first_score].
  change overall_score_of_10
    with (RSeq (lit "overall score")
            (cat [RLazyStar CAny; number_group; lit "/10"])).
  change overall_score
    with (RSeq (lit "overall score") (cat [RLazyStar CAny; number_group])).
  rewrite !search_seq_none by done.
  rewrite (search_drop U _ (length pre + 8)).
  2:{ intros k Hk.
      change reliability_score_of_10
        with (RSeq (lit "reliability score")
                (cat [RLazyStar CAny; number_group; lit "/10"])).
      apply match_at_seq_none. by apply Hbefore. }
  rewrite <- drop_drop, drop_app_length.
  replace (drop 8 (score_marker ++ suf))
    with (txt "Reliability Score: 7.5/10" ++ suf)
    by (vm_compute; reflexivity).
  assert (search U reliability_score_of_10
            (txt "Reliability Score: 7.5/10" ++ suf)
          = Some (Some (txt "7.5"))) as -> by (vm_compute; reflexivity).
  reflexivity.
Qed.

(** C1, as the code has it.  The score cell of the row that the summary
    table has for a result is [extract_score] of the text of its report.
    This is the text of group 1 of the first pattern of [score_patterns], in
    the order of the list, that matches the report (the group always takes
    part in a match), and [N/A] when no pattern matches.  A report that
    contains [Overall Reliability Score: 7.5/10] gives [7.5] when it has no
    [overall score] phrase and no [reliability score] phrase that starts
    before the one of the marker; the phrases are found without regard to
    case. *)
Theorem summary_score_first_match U report :
  (forall E self results tr combined tr',
      _combine_reports U E self results tr = (Ok combined, tr') ->
      exists rows sections,
        Forall2 (fun r row =>
                   row_with_score r (extract_score U (pr_report r)) row)
          results rows
        /\ combined
           = report_header self (strftime E tr) (length results)
               ++ concat rows ++ nl ++ concat sections)
  /\ (forall i p g,
        score_patterns !! i = Some p ->
        search U p report = Some g ->
        (forall j q, j < i -> score_patterns !! j = Some q ->
                     search U q report = None) ->
        exists number, g = Some number /\ extract_score U report = number)
  /\ ((forall p, p ∈ score_patterns -> search U p report = None) ->
      extract_score U report = txt "N/A")
  /\ (forall pre suf,
        report = pre ++ score_marker ++ suf ->
        search U (lit "overall score") report = None ->
        (forall k, k < length pre + 8 ->
           match_at U (lit "reliability score") (drop k report) = None) ->
        extract_score U report = txt "7.5").
Proof.
  split_and!.
  - intros E self results tr combined tr' Hrun.
    destruct (combine_reports_table _ _ _ _ _ _ _ Hrun)
      as (rows & sections & Hrows & _ & ->).
    by exists rows, sections.
  - intros i p g Hi Hmatch Hbefore.
    destruct (search_group U p report g) as [number ->]; [|done|].
    { apply score_patterns_group. by eapply list_elem_of_lookup_2. }
    exists number. split; [done|].
    unfold extract_score.
    by rewrite (first_score_first_match U report _ i p (Some number)).
  - apply first_score_no_match.
  - intros pre suf -> Hoverall Hbefore. by apply extract_score_marker.
Qed.

Lemma summary_score_first_match_witness :
  extract_score ascii_db score_marker = txt "7.5".
Proof.
  apply (proj2 (proj2 (proj2
           (summary_score_first_match ascii_db score_marker))) [] []).
  - vm_compute. reflexivity.
  - vm_compute. reflexivity.
  - intros k Hk. do 8 (destruct k as [|k]; [vm_compute; reflexivity|]).
    simpl in Hk. lia.
Defined.

(** C1 as it was stated fails: this report contains the marker, and its
    score cell is [3], from the [overall score] phrase in front of it. *)
Lemma extract_score_earlier_phrase :
  report_with_earlier_phrase = txt "Overall score: 3/10. " ++ score_marker ++ []
  /\ extract_score ascii_db report_with_earlier_phrase = txt "3"
  /\ extract_score ascii_db report_with_earlier_phrase <> txt "7.5".
Proof. split_and!; [by vm_compute|by vm_compute|by vm_compute]. Qed.

(** ** The statements at concrete inputs *)

Lemma chunk_and_process_within_budget_witness :
  format small_template small_content = Ok (txt "Q: why? A: because")
  /\ (Z.of_nat (length (txt "Q: why? A: because")) # 4
      <= inject_Z (default default_max_tokens_per_chunk (Some 12000%Z)))%Q
  /\ chunk_and_process demo_env demo_client small_template small_content
       (Some 12000%Z) []
     = (Ok canned_report,
        [EPost (request_of demo_client (txt "Q: why? A: because") 4000)
           (Ok canned_response)]).
Proof.
  split_and!; [reflexivity|by vm_compute|].
  apply (chunk_and_process_within_budget demo_env demo_client small_template
           small_content (Some 12000%Z) [] (txt "Q: why? A: because"));
    [reflexivity|by vm_compute].
Defined.


Lemma chunk_and_process_final_cap_witness :
  format small_template large_content = Ok (txt "Q: why? A: " ++ long_value)
  /\ (Z.of_nat (length (txt "Q: why? A: " ++ long_value)) # 4
      <= inject_Z (default default_max_tokens_per_chunk (Some 12000%Z)))%Q
  /\ (inject_Z (default default_max_tokens_per_chunk (Some 100%Z))
      < Z.of_nat (length (txt "Q: why? A: " ++ long_value)) # 4)%Q
  /\ (let rq := request_of demo_client (txt "Q: why? A: " ++ long_value)
                  default_max_tokens in
      let answer := requests_post demo_env [] rq in
      chunk_and_process demo_env demo_client small_template large_content
        (Some 12000%Z) []
      = (read_response (provider demo_client) answer,
         [] ++ [EPost rq answer])
      /\ rq_content rq = txt "Q: why? A: " ++ long_value
      /\ rq_max_tokens rq = 4000%Z)
  /\ exists calls content' prompt' rq answer,
      summarized demo_client large_content calls content'
      /\ Forall (fun e => post_cap e = Some 2000%Z) calls
      /\ format small_template content' = Ok prompt'
      /\ large_run.2 = [] ++ calls ++ [EPost rq answer]
      /\ rq_content rq = summarized_note ++ prompt'
      /\ rq_max_tokens rq = 4000%Z
      /\ large_run.1 = read_response (provider demo_client) answer.
Proof.
  assert (format small_template large_content
          = Ok (txt "Q: why? A: " ++ long_value)) as Hfmt
    by (vm_compute; reflexivity).
  assert (Z.of_nat (length (txt "Q: why? A: " ++ long_value)) # 4
          <= inject_Z (default default_max_tokens_per_chunk (Some 12000%Z)))%Q
    as Hfits by (by vm_compute).
  assert (inject_Z (default default_max_tokens_per_chunk (Some 100%Z))
          < Z.of_nat (length (txt "Q: why? A: " ++ long_value)) # 4)%Q
    as Hbig by (by vm_compute).
  assert (large_run.1 = Ok canned_report) as Hok by (vm_compute; reflexivity).
  split; [exact Hfmt|]. split; [exact Hfits|]. split; [exact Hbig|]. split.
  - exact (proj1 (chunk_and_process_final_cap demo_env demo_client
                    small_template large_content []
                    (txt "Q: why? A: " ++ long_value) Hfmt (Some 12000%Z))
             Hfits).
  - destruct (proj2 (chunk_and_process_final_cap demo_env demo_client
                       small_template large_content []
                       (txt "Q: why? A: " ++ long_value) Hfmt (Some 100%Z))
                Hbig large_run.1 large_run.2 (surjective_pairing large_run))
      as [Hfinal|(calls & e & _ & _ & _ & Hraise)].
    + exact Hfinal.
    + rewrite Hraise in Hok. discriminate Hok.
Defined.

Lemma load_prompts_first_five_witness :
  load_yaml demo_env [] (txt "prompts.yaml") = Ok two_prompts
  /\ exists loaded,
      load_prompts demo_env (txt "prompts.yaml") []
      = (Ok loaded, [] ++ [ERead (txt "prompts.yaml") (Ok two_prompts)])
      /\ length loaded <= 5
      /\ (forall i, loaded !! i
                    = if decide (i < 5)
                      then default [] (two_prompts !! "prompts") !! i
                      else None)
      /\ (two_prompts !! "prompts" = None -> loaded = []).
Proof.
  split; [reflexivity|].
  apply (load_prompts_first_five demo_env (txt "prompts.yaml") [] two_prompts).
  reflexivity.
Defined.

Lemma run_tests_no_prompts_witness :
  load_yaml no_prompts_env [] (txt "prompts.yaml") = Ok ∅
  /\ run_tests ascii_db no_prompts_env demo_tester (txt "prompts.yaml") []
     = (Ok (txt "Error: No prompts found in the specified file."),
        [] ++ [ERead (txt "prompts.yaml") (Ok ∅)]).
Proof.
  split; [reflexivity|].
  apply (run_tests_no_prompts ascii_db no_prompts_env demo_tester
           (txt "prompts.yaml") [] ∅); [reflexivity|].
  left. reflexivity.
Defined.

Lemma evaluate_repeatability_needs_five_witness :
  length [txt "a"; txt "b"] < 5
  /\ evaluate_repeatability demo_env demo_tester (txt "q") [txt "a"; txt "b"] []
     = (Raise IndexError, []).
Proof.
  split; [simpl; lia|].
  apply (proj1 (evaluate_repeatability_needs_five demo_env demo_tester
                  (txt "q") [txt "a"; txt "b"] [])).
  simpl. lia.
Defined.



(** The run on the two prompts returns a report whose table has [9.0] in
    both rows. *)
Example demo_run_rows :
  exists combined before after,
    demo_run.1 = Ok combined
    /\ combined
       = before
           ++ txt "| arith | What is 2+2?... | 9.0 |" ++ nl
           ++ txt "| Unknown | Name a prime number greater th... | 9.0 |"
           ++ nl ++ after.
Proof.
  eexists _, (report_header demo_tester (txt "2025-01-01 12:00:00") 2), _.
  split; vm_compute; reflexivity.
Qed.

(** ** Counting the calls of a run *)

Lemma queries_app tr1 tr2 : queries (tr1 ++ tr2) = queries tr1 ++ queries tr2.
Proof. apply omap_app. Qed.

Lemma sleeps_app tr1 tr2 : sleeps (tr1 ++ tr2) = sleeps tr1 ++ sleeps tr2.
Proof. apply omap_app. Qed.

Lemma posts_app tr1 tr2 : posts (tr1 ++ tr2) = posts tr1 ++ posts tr2.
Proof. apply omap_app. Qed.

Lemma queries_cons e tr :
  queries (e :: tr)
  = match e with EQuery query _ => [query] | _ => [] end ++ queries tr.
Proof. by destruct e. Qed.

Lemma sleeps_cons e tr :
  sleeps (e :: tr)
  = match e with ESleep seconds => [seconds] | _ => [] end ++ sleeps tr.
Proof. by destruct e. Qed.

Lemma posts_cons e tr :
  posts (e :: tr) = match e with EPost rq _ => [rq] | _ => [] end ++ posts tr.
Proof. by destruct e. Qed.

Lemma only_posts delta :
  Forall is_post delta ->
  queries delta = [] /\ sleeps delta = [] /\ length (posts delta) = length delta.
Proof.
  induction 1 as [|e delta He _ (Hq & Hs & Hp)]; [done|].
  rewrite queries_cons, sleeps_cons, posts_cons, Hq, Hs.
  destruct e; try done. simpl. by rewrite Hp.
Qed.

Lemma summarized_posts self content calls content' :
  summarized self content calls content' ->
  Forall is_post calls /\ length calls <= length content.
Proof.
  induction 1 as [|key value content calls content' _ _ [IH1 IH2]
                  |key value answer summary content calls content'
                     _ _ _ [IH1 IH2]]; simpl.
  - split; [constructor|lia].
  - split; [done|lia].
  - split; [by constructor|lia].
Qed.

Lemma summarize_failed_posts self content calls e :
  summarize_failed self content calls e ->
  Forall is_post calls /\ length calls <= length content.
Proof.
  induction 1 as [key value answer e content _ _
                  |key value content calls e _ _ [IH1 IH2]
                  |key value answer summary content calls e _ _ _ [IH1 IH2]];
    simpl.
  - split; [by repeat constructor|lia].
  - split; [done|lia].
  - split; [by constructor|lia].
Qed.

(** A run of [chunk_and_process] leaves requests to the judge and nothing
    else: at most one per field and one more, and at least one when it
    returns. *)
Lemma chunk_and_process_posts E self t content budget tr res tr' :
  chunk_and_process E self t content budget tr = (res, tr') ->
  exists delta,
    tr' = tr ++ delta /\ Forall is_post delta /\
    length delta <= 1 + length content /\
    (forall r, res = Ok r -> 1 <= length delta).
Proof.
  intros Hrun.
  destruct (format t content) as [prompt|e] eqn:Hfmt.
  - destruct (fits prompt (default default_max_tokens_per_chunk budget))
      eqn:Hfits.
    + rewrite (chunk_fits E self t content budget tr prompt Hfmt Hfits),
        generate_text_run in Hrun.
      cbn zeta in Hrun. apply pair_equal_spec in Hrun as [<- <-].
      eexists [_]. split_and!; [done|by repeat constructor|simpl; lia|done].
    + destruct (chunk_summarizes E self t content budget tr
                  prompt res tr' Hfmt Hfits Hrun)
        as [(calls & content' & prompt' & answer & Hsum & _ & -> & ->)
           |(calls & e & Hfail & -> & ->)].
      * apply summarized_posts in Hsum as [Hposts Hlen].
        exists (calls ++ [final_call self (summarized_note ++ prompt') answer]).
        split_and!; [done| | |].
        -- apply Forall_app. split; [done|by repeat constructor].
        -- rewrite length_app. simpl. lia.
        -- intros _ _. rewrite length_app. simpl. lia.
      * apply summarize_failed_posts in Hfail as [Hposts Hlen].
        exists calls. split_and!; [done|done|lia|done].
  - unfold chunk_and_process in Hrun. rewrite Hfmt, bind_lift_raise in Hrun.
    apply pair_equal_spec in Hrun as [<- <-].
    exists []. split_and!; [by rewrite app_nil_r|constructor|simpl; lia|done].
Qed.

Lemma runs_events_shows self query responses :
  forall i,
    queries (runs_events self query i responses)
    = replicate (length responses) query
    /\ sleeps (runs_events self query i responses)
       = replicate (length responses) 1%Z
    /\ posts (runs_events self query i responses) = [].
Proof.
  induction responses as [|r responses IH]; intros i; [done|].
  destruct (IH (S i)) as (Hq & Hs & Hp). cbn [runs_events].
  rewrite !queries_cons, !sleeps_cons, !posts_cons, Hq, Hs, Hp. done.
Qed.

(** A run of [test_prompt] that returns, step by step. *)
Lemma test_prompt_ok E self prompt tr r tr' :
  test_prompt E self prompt tr = (Ok r, tr') ->
  exists query response visibility_evaluation tr_v responses
         repeatability_evaluation tr_r report,
    prompt !! "text" = Some query
    /\ evaluate_visibility E self query response
         (tr ++ first_query_events prompt query (Ok response))
       = (Ok visibility_evaluation, tr_v)
    /\ length responses = Z.to_nat (repeat_count self)
    /\ evaluate_repeatability E self query responses
         (tr_v ++ repeatability_line self
               :: runs_events self query 0 responses)
       = (Ok repeatability_evaluation, tr_r)
    /\ generate_report E self visibility_evaluation repeatability_evaluation
         (tr_r ++ [EPrint (txt "  Generating reliability report...")])
       = (Ok report, tr')
    /\ r = {| pr_prompt := prompt;
              pr_visibility_evaluation := visibility_evaluation;
              pr_repeatability_evaluation := repeatability_evaluation;
              pr_report := report |}.
Proof.
  intros Hrun. unfold test_prompt in Hrun.
  unfold getitem in Hrun.
  destruct (prompt !! "text") as [query|] eqn:Htext; [|done].
  rewrite bind_lift_ok in Hrun.
  unfold print, emit, execute_query, call in Hrun.
  rewrite !bind_run in Hrun. rewrite <- !app_assoc in Hrun.
  simpl app in Hrun.
  destruct (agent_execute_query E _ query) as [response|e] eqn:Hanswer;
    [|done].
  fold (first_query_events prompt query (Ok response)) in Hrun.
  rewrite bind_run in Hrun.
  destruct (evaluate_visibility E self query response _)
    as [[visibility_evaluation|e] tr_v] eqn:Hvis; [|done].
  rewrite !bind_run in Hrun. fold (repeatability_line self) in Hrun.
  destruct (for_each _ (range (repeat_count self)) _)
    as [loop_res tr_l] eqn:Hloop.
  destruct (repeat_loop _ _ _ _ _ _ _ _ Hloop)
    as [(responses & -> & Hlen & ->)|(responses & e & -> & Hlen & ->)];
    [|done].
  rewrite bind_run in Hrun. rewrite <- app_assoc in Hrun.
  simpl app in Hrun.
  destruct (evaluate_repeatability E self query responses _)
    as [[repeatability_evaluation|e] tr_r] eqn:Hrep; [|done].
  rewrite !bind_run in Hrun.
  destruct (generate_report E self _ _ _) as [[report|e] tr_g] eqn:Hgen;
    [|done].
  unfold ret in Hrun. apply pair_equal_spec in Hrun as [Hr <-].
  injection Hr as <-.
  by exists query, response, visibility_evaluation, tr_v, responses,
    repeatability_evaluation, tr_r, report.
Qed.

Lemma evaluate_visibility_posts E self query response tr res tr' :
  evaluate_visibility E self query response tr = (res, tr') ->
  exists delta,
    tr' = tr ++ delta /\ Forall is_post delta /\ length delta <= 3 /\
    (forall r, res = Ok r -> 1 <= length delta).
Proof. intros Hrun. by apply chunk_and_process_posts in Hrun. Qed.

Lemma generate_report_posts E self v rep tr res tr' :
  generate_report E self v rep tr = (res, tr') ->
  exists delta,
    tr' = tr ++ delta /\ Forall is_post delta /\ length delta <= 3 /\
    (forall r, res = Ok r -> 1 <= length delta).
Proof. intros Hrun. by apply chunk_and_process_posts in Hrun. Qed.

Lemma evaluate_repeatability_posts E self query responses tr r tr' :
  evaluate_repeatability E self query responses tr = (Ok r, tr') ->
  5 <= length responses /\
  exists delta,
    tr' = tr ++ delta /\ Forall is_post delta /\ 1 <= length delta <= 7.
Proof.
  intros Hrun.
  destruct (decide (length responses < 5)) as [Hshort|Hlong].
  { by rewrite evaluate_repeatability_short in Hrun. }
  split; [lia|].
  destruct responses as [|r1 [|r2 [|r3 [|r4 [|r5 rest]]]]];
    simpl in Hlong; try lia.
  rewrite evaluate_repeatability_five in Hrun.
  apply chunk_and_process_posts in Hrun as (delta & -> & Hposts & Hle & Hge).
  exists delta. split_and!; [done|done|by eapply Hge|done].
Qed.

(** What a returning run of [test_prompt] asked of its collaborators. *)
Lemma test_prompt_calls E self prompt tr r tr' :
  test_prompt E self prompt tr = (Ok r, tr') ->
  exists query delta,
    prompt !! "text" = Some query
    /\ pr_prompt r = prompt
    /\ (5 <= repeat_count self)%Z
    /\ tr' = tr ++ delta
    /\ queries delta = replicate (S (Z.to_nat (repeat_count self))) query
    /\ sleeps delta = replicate (Z.to_nat (repeat_count self)) 1%Z
    /\ 3 <= length (posts delta) <= 13.
Proof.
  intros Hrun.
  apply test_prompt_ok in Hrun
    as (query & response & v & tr_v & responses & rep & tr_r & report
        & Htext & Hvis & Hlen & Hrep & Hgen & ->).
  apply evaluate_visibility_posts in Hvis as (d1 & -> & Hd1 & Hle1 & Hge1).
  apply evaluate_repeatability_posts in Hrep
    as (Hfive & d2 & -> & Hd2 & Hge2 & Hle2).
  apply generate_report_posts in Hgen as (d3 & -> & Hd3 & Hle3 & Hge3).
  specialize (Hge1 _ eq_refl). specialize (Hge3 _ eq_refl).
  apply only_posts in Hd1 as (Hq1 & Hs1 & Hp1).
  apply only_posts in Hd2 as (Hq2 & Hs2 & Hp2).
  apply only_posts in Hd3 as (Hq3 & Hs3 & Hp3).
  destruct (runs_events_shows self query responses 0) as (Hq & Hs & Hp).
  exists query,
    (first_query_events prompt query (Ok response) ++ d1
       ++ repeatability_line self :: runs_events self query 0 responses
       ++ d2 ++ EPrint (txt "  Generating reliability report...") :: d3).
  split_and!; [done|done|lia| | | | |].
  - rewrite <- !app_assoc. cbn [app]. rewrite <- ?app_assoc. reflexivity.
  - unfold first_query_events.
    rewrite !queries_app, !queries_cons, !queries_app, !queries_cons,
      Hq1, Hq2, Hq3, Hq, <- Hlen.
    simpl. by rewrite app_nil_r.
  - unfold first_query_events.
    rewrite !sleeps_app, !sleeps_cons, !sleeps_app, !sleeps_cons,
      Hs1, Hs2, Hs3, Hs, <- Hlen.
    simpl. by rewrite app_nil_r.
  - unfold first_query_events.
    rewrite !posts_app, !posts_cons, !posts_app, !posts_cons, Hp.
    simpl. rewrite !length_app, Hp1, Hp2, Hp3. lia.
  - unfold first_query_events.
    rewrite !posts_app, !posts_cons, !posts_app, !posts_cons, Hp.
    simpl. rewrite !length_app, Hp1, Hp2, Hp3. lia.
Qed.

Lemma for_each_ok {A B} (f : A -> M B) (Q : A -> B -> list event -> Prop) :
  (forall a tr b tr',
      f a tr = (Ok b, tr') -> exists delta, tr' = tr ++ delta /\ Q a b delta) ->
  forall l tr bs tr',
    for_each f l tr = (Ok bs, tr') ->
    exists deltas, tr' = tr ++ concat deltas /\ Forall3 Q l bs deltas.
Proof.
  intros Hf. induction l as [|a l IH]; intros tr bs tr' Hrun.
  - injection Hrun as <- <-. exists []. split; [by rewrite app_nil_r|].
    constructor.
  - cbn [for_each] in Hrun. rewrite bind_run in Hrun.
    destruct (f a tr) as [[b|e] tr1] eqn:Ha; [|done].
    rewrite bind_run in Hrun.
    destruct (for_each f l tr1) as [[bs'|e] tr2] eqn:Hl; [|done].
    injection Hrun as <- <-.
    apply Hf in Ha as (d & -> & HQ).
    apply IH in Hl as (ds & -> & Hall).
    exists (d :: ds). split; [by rewrite <- app_assoc|by constructor].
Qed.

Lemma for_each_raises {A B} (f : A -> M B) l a :
  a ∈ l ->
  (forall tr b tr', f a tr <> (Ok b, tr')) ->
  forall tr bs tr', for_each f l tr <> (Ok bs, tr').
Proof.
  intros Hin Ha. induction l as [|a0 l IH]; intros tr bs tr' Hrun.
  - by apply elem_of_nil in Hin.
  - cbn [for_each] in Hrun. rewrite bind_run in Hrun.
    destruct (f a0 tr) as [[b|e] tr1] eqn:Ha0; [|done].
    rewrite bind_run in Hrun.
    destruct (for_each f l tr1) as [[bs'|e] tr2] eqn:Hl; [|done].
    apply elem_of_cons in Hin as [->|Hin].
    + by eapply Ha.
    + by eapply IH.
Qed.

Lemma combine_reports_trace U E self results tr res tr' :
  _combine_reports U E self results tr = (res, tr') ->
  tr' = tr ++ [EClock (strftime E tr)].
Proof.
  unfold _combine_reports, time_strftime. rewrite bind_run.
  cbv beta iota zeta. rewrite bind_run. unfold lift.
  destruct (append_each _ _ _); [|by intros [= <- <-]].
  by intros [= <- <-].
Qed.

(** A prompt on which [test_prompt] cannot return stops the run before the
    report is combined or written. *)
Lemma run_tests_bad_prompt U E self prompts_path tr doc p res tr' :
  load_yaml E tr prompts_path = Ok doc ->
  p ∈ take 5 (default [] (doc !! "prompts")) ->
  (forall tr0 r tr1, test_prompt E self p tr0 <> (Ok r, tr1)) ->
  run_tests U E self prompts_path tr = (res, tr') ->
  exists e delta,
    res = Raise e /\ tr' = tr ++ delta /\ Forall not_write delta.
Proof.
  intros Hdoc Hin Hbad Hrun.
  rewrite (run_tests_unfold U E self prompts_path tr doc _ Hdoc eq_refl)
    in Hrun.
  2:{ intros Hnil. rewrite Hnil in Hin. by apply elem_of_nil in Hin. }
  unfold test_all in Hrun. rewrite bind_run in Hrun.
  destruct (for_each _ _ _) as [[results|e] tr1] eqn:Hall.
  { by eapply for_each_raises in Hall. }
  apply pair_equal_spec in Hrun as [<- <-].
  destruct (emits_run not_write _ _ _ _
              (emits_for_each _ _ _ (test_prompt_no_write E self)) Hall)
    as (d1 & -> & Hd1).
  eexists e, (_ :: _ :: d1).
  split_and!; [done|by rewrite <- app_assoc|by repeat (constructor; [done|])].
Qed.

Lemma test_prompt_needs_five E self prompt tr r tr' :
  (repeat_count self < 5)%Z ->
  test_prompt E self prompt tr <> (Ok r, tr').
Proof.
  intros Hfew Hrun. apply test_prompt_calls in Hrun as (? & ? & _ & _ & ? & _).
  lia.
Qed.

Lemma test_prompt_needs_text E self prompt tr :
  prompt !! "text" = None ->
  test_prompt E self prompt tr = (Raise (KeyError "text"), tr).
Proof. intros Htext. unfold test_prompt, getitem. by rewrite Htext. Qed.

Lemma prompt_calls_all self prompts results deltas :
  Forall3 (prompt_calls self) prompts results deltas ->
  exists texts,
    Forall2 (fun prompt query => prompt !! "text" = Some query) prompts texts
    /\ pr_prompt <$> results = prompts
    /\ queries (concat deltas)
       = concat (replicate (S (Z.to_nat (repeat_count self))) <$> texts)
    /\ sleeps (concat deltas)
       = replicate (length texts * Z.to_nat (repeat_count self)) 1%Z
    /\ 3 * length texts <= length (posts (concat deltas)) <= 13 * length texts.
Proof.
  induction 1 as [|prompt r delta prompts results deltas
                    (query & Htext & Hprompt & Hq & Hs & Hp1 & Hp2) _
                    (texts & Htexts & Hprompts & Hqs & Hss & Hps1 & Hps2)].
  - exists []. split_and!; try done; simpl; lia.
  - exists (query :: texts). cbn [concat fmap list_fmap length].
    rewrite queries_app, sleeps_app, posts_app, length_app, Hq, Hs, Hqs, Hss.
    split_and!; [by constructor|by rewrite Hprompt, Hprompts|done| |lia|lia].
    by rewrite <- replicate_add.
Qed.

(** The pieces of the combined report, by the two loops. *)
Lemma combine_reports_pieces U E self results tr combined tr' :
  _combine_reports U E self results tr = (Ok combined, tr') ->
  exists rows sections,
    Forall2 (fun r row => summary_row U r = Ok row) results rows
    /\ Forall2 (fun r section => prompt_section r = Ok section)
         results sections
    /\ combined
       = report_header self (strftime E tr) (length results)
           ++ concat rows ++ nl ++ concat sections.
Proof.
  unfold _combine_reports, time_strftime. rewrite bind_run.
  cbv beta iota zeta. rewrite bind_run. unfold lift at 1.
  destruct (append_each (summary_row U) results _) as [table|e] eqn:Hrows;
    [|done].
  unfold lift.
  destruct (append_each prompt_section results _) as [out|e] eqn:Hsections;
    [|done].
  intros [= <- <-].
  apply append_each_concat in Hrows as (rows & Hrows & ->).
  apply append_each_concat in Hsections as (sections & Hsections & ->).
  exists rows, sections. split_and!; [done|done|by rewrite <- !app_assoc].
Qed.

(** A run of [run_tests] that returns, step by step. *)
Lemma run_tests_ok U E self prompts_path tr combined tr' :
  run_tests U E self prompts_path tr = (Ok combined, tr') ->
  exists doc,
    load_yaml E tr prompts_path = Ok doc /\
    ((take 5 (default [] (doc !! "prompts")) = []
      /\ tr' = tr ++ [ERead prompts_path (Ok doc)])
     \/ exists results deltas tr1,
          Forall3 (prompt_calls self)
            (take 5 (default [] (doc !! "prompts"))) results deltas
          /\ tr1 = tr ++ ERead prompts_path (Ok doc)
                      :: running_line (take 5 (default [] (doc !! "prompts")))
                      :: concat deltas
          /\ _combine_reports U E self results tr1
             = (Ok combined, tr1 ++ [EClock (strftime E tr1)])
          /\ tr' = tr1 ++ [EClock (strftime E tr1);
                           EWrite (report_file self) combined (Ok tt);
                           saved_line self]).
Proof.
  intros Hrun.
  destruct (load_yaml E tr prompts_path) as [doc|e] eqn:Hdoc.
  2:{ unfold run_tests in Hrun.
      by rewrite bind_run, load_prompts_run, Hdoc in Hrun. }
  exists doc. split; [done|].
  destruct (take 5 (default [] (doc !! "prompts"))) as [|p prompts]
    eqn:Hprompts.
  { left. split; [done|]. unfold run_tests in Hrun.
    rewrite bind_run, load_prompts_run, Hdoc in Hrun.
    cbv beta iota zeta in Hrun. rewrite Hprompts in Hrun.
    by injection Hrun as _ <-. }
  right.
  rewrite (run_tests_unfold U E self prompts_path tr doc _ Hdoc Hprompts)
    in Hrun by done.
  unfold test_all in Hrun. rewrite bind_run in Hrun.
  destruct (for_each _ _ _) as [[results|e] tr1] eqn:Hall; [|done].
  apply (for_each_ok _ (prompt_calls self)) in Hall
    as (deltas & -> & Hall).
  2:{ intros prompt tr0 r tr2 Hprompt.
      apply test_prompt_calls in Hprompt
        as (query & delta & ? & ? & ? & -> & ? & ? & ? & ?).
      exists delta. split; [done|]. by exists query. }
  rewrite <- app_assoc in Hrun. cbn [app] in Hrun.
  rewrite bind_run in Hrun.
  destruct (_combine_reports U E self results _)
    as [[combined'|e] tr2] eqn:Hcombined; [|done].
  pose proof (combine_reports_trace _ _ _ _ _ _ _ Hcombined) as ->.
  rewrite bind_run in Hrun. unfold call in Hrun.
  destruct (write_file E _ (report_file self) combined') as [[]|e]; [|done].
  rewrite bind_run in Hrun. unfold emit, ret in Hrun.
  apply pair_equal_spec in Hrun as [[= <-] <-].
  eexists results, deltas, _. split_and!; [done|reflexivity|done|].
  by rewrite <- !app_assoc.
Qed.

(** X1. With a repeat count below 5 no run of [test_prompt] returns: the
    loop collects fewer than five responses and the repeatability
    evaluation raises, if nothing raised before.  So a run of [run_tests]
    on a document with a prompt raises, and no file is written. *)
Theorem repeat_count_below_five U E self prompts_path tr doc p res tr' :
  (repeat_count self < 5)%Z ->
  load_yaml E tr prompts_path = Ok doc ->
  p ∈ take 5 (default [] (doc !! "prompts")) ->
  run_tests U E self prompts_path tr = (res, tr') ->
  (forall prompt tr0 r tr1, test_prompt E self prompt tr0 <> (Ok r, tr1))
  /\ exists e delta,
      res = Raise e /\ tr' = tr ++ delta /\ Forall not_write delta.
Proof.
  intros Hfew Hdoc Hin Hrun. split.
  - intros prompt tr0 r tr1. by apply test_prompt_needs_five.
  - eapply run_tests_bad_prompt; [done|done| |done].
    intros tr0 r tr1. by apply test_prompt_needs_five.
Qed.

(** X2. A prompt without [text] makes [test_prompt] raise the key error at
    once, with nothing printed or called.  When one of the loaded prompts
    has no [text], [run_tests] raises and writes no file, whatever was done
    for the prompts in front of it; when it is the first prompt, the key
    error is raised right after the first line is printed. *)
Theorem prompt_without_text U E self prompts_path tr doc p res tr' :
  load_yaml E tr prompts_path = Ok doc ->
  p ∈ take 5 (default [] (doc !! "prompts")) ->
  p !! "text" = None ->
  run_tests U E self prompts_path tr = (res, tr') ->
  (forall tr0, test_prompt E self p tr0 = (Raise (KeyError "text"), tr0))
  /\ (exists e delta,
        res = Raise e /\ tr' = tr ++ delta /\ Forall not_write delta)
  /\ (forall rest,
        take 5 (default [] (doc !! "prompts")) = p :: rest ->
        res = Raise (KeyError "text")
        /\ tr' = tr ++ [ERead prompts_path (Ok doc);
                        running_line (p :: rest)]).
Proof.
  intros Hdoc Hin Htext Hrun. split_and!.
  - intros tr0. by apply test_prompt_needs_text.
  - eapply run_tests_bad_prompt; [done|done| |done].
    intros tr0 r tr1. by rewrite test_prompt_needs_text.
  - intros rest Hprompts.
    rewrite (run_tests_unfold U E self prompts_path tr doc _ Hdoc Hprompts)
      in Hrun by done.
    unfold test_all in Hrun. cbn [for_each] in Hrun.
    rewrite !bind_run, test_prompt_needs_text in Hrun by done.
    by apply pair_equal_spec in Hrun as [<- <-].
Qed.

Lemma prompt_calls_each self prompts results deltas :
  Forall3 (prompt_calls self) prompts results deltas ->
  Forall2 (fun prompt delta =>
             exists query,
               prompt !! "text" = Some query
               /\ queries delta
                  = replicate (S (Z.to_nat (repeat_count self))) query
               /\ sleeps delta
                  = replicate (Z.to_nat (repeat_count self)) 1%Z
               /\ 3 <= length (posts delta) <= 13)
    prompts deltas.
Proof.
  induction 1 as [|prompt r delta prompts results deltas
                    (query & Htext & _ & Hq & Hs & Hp) _ IH];
    constructor; [|exact IH].
  by exists query.
Qed.

(** X3. The trace of a run of [run_tests] that returns has one stretch per
    loaded prompt, in the order of the document.  In the stretch of a
    prompt the agent was asked the text of that prompt [1 + repeat_count]
    times and nothing else, there were [repeat_count] pauses of one second,
    and the judge was sent at least 3 and at most 13 requests.  Outside
    these stretches the agent was not asked, nothing paused and nothing was
    sent to the judge. *)
Theorem run_tests_calls U E self prompts_path tr combined tr' :
  run_tests U E self prompts_path tr = (Ok combined, tr') ->
  exists doc before deltas after,
    load_yaml E tr prompts_path = Ok doc
    /\ tr' = tr ++ before ++ concat deltas ++ after
    /\ queries (before ++ after) = []
    /\ sleeps (before ++ after) = []
    /\ posts (before ++ after) = []
    /\ Forall2 (fun prompt delta =>
                  exists query,
                    prompt !! "text" = Some query
                    /\ queries delta
                       = replicate (S (Z.to_nat (repeat_count self))) query
                    /\ sleeps delta
                       = replicate (Z.to_nat (repeat_count self)) 1%Z
                    /\ 3 <= length (posts delta) <= 13)
         (take 5 (default [] (doc !! "prompts"))) deltas.
Proof.
  intros Hrun.
  apply run_tests_ok in Hrun
    as (doc & Hdoc
        & [[Hnone ->]|(results & deltas & tr1 & Hall & -> & _ & ->)]).
  - exists doc, [ERead prompts_path (Ok doc)], [], [].
    rewrite Hnone.
    split_and!; [done|done|reflexivity|reflexivity|reflexivity|constructor].
  - exists doc,
      [ERead prompts_path (Ok doc);
       running_line (take 5 (default [] (doc !! "prompts")))],
      deltas,
      [EClock (strftime E
                 (tr ++ ERead prompts_path (Ok doc)
                     :: running_line (take 5 (default [] (doc !! "prompts")))
                     :: concat deltas));
       EWrite (report_file self) combined (Ok tt); saved_line self].
    split_and!; [done| |reflexivity|reflexivity|reflexivity
                |by eapply prompt_calls_each].
    rewrite <- !app_assoc. reflexivity.
Qed.

(** X4. The report that [run_tests] returns for a document with prompts is
    the header, then one row per loaded prompt, an empty line, and one
    section per loaded prompt, the rows and the sections in the order of
    the document; the header counts the loaded prompts. *)
Theorem run_tests_report U E self prompts_path tr doc p ps combined tr' :
  load_yaml E tr prompts_path = Ok doc ->
  doc !! "prompts" = Some (p :: ps) ->
  run_tests U E self prompts_path tr = (Ok combined, tr') ->
  exists results now rows sections,
    pr_prompt <$> results = take 5 (p :: ps)
    /\ EClock now ∈ tr'
    /\ Forall2 (fun r row => summary_row U r = Ok row) results rows
    /\ Forall2 (fun r section => prompt_section r = Ok section)
         results sections
    /\ combined
       = report_header self now (length (take 5 (p :: ps)))
           ++ concat rows ++ nl ++ concat sections.
Proof.
  intros Hdoc Hprompts Hrun.
  apply run_tests_ok in Hrun
    as (doc' & Hdoc'
        & [[Hnone _]|(results & deltas & tr1 & Hall & _ & Hcombined & ->)]);
    rewrite Hdoc in Hdoc'; injection Hdoc' as <-;
    rewrite Hprompts in *; [done|].
  apply prompt_calls_all in Hall as (_ & _ & Hresults & _).
  change (take 5 (default [] (Some (p :: ps)))) with (take 5 (p :: ps))
    in Hresults.
  apply combine_reports_pieces in Hcombined
    as (rows & sections & Hrows & Hsections & ->).
  exists results, (strftime E tr1), rows, sections.
  split_and!; [done| |done|done|].
  - apply elem_of_app. right. constructor.
  - by rewrite <- Hresults, length_fmap.
Qed.

Lemma summary_row_text U r :
  match pr_prompt r !! "text" with
  | Some _ => exists row, summary_row U r = Ok row
  | None => summary_row U r = Raise (KeyError "text")
  end.
Proof.
  unfold summary_row, getitem. destruct (pr_prompt r !! "text"); eauto.
Qed.

Lemma prompt_section_text r :
  match pr_prompt r !! "text" with
  | Some _ => exists section, prompt_section r = Ok section
  | None => prompt_section r = Raise (KeyError "text")
  end.
Proof.
  unfold prompt_section, getitem. destruct (pr_prompt r !! "text"); eauto.
Qed.

Lemma append_each_all f results :
  Forall (fun r => exists piece, f r = Ok piece) results ->
  forall report, exists out, append_each f results report = Ok out.
Proof.
  induction 1 as [|r results [piece Hr] _ IH]; intros report; simpl.
  - eauto.
  - rewrite Hr. apply IH.
Qed.

Lemma append_each_raises f results e :
  Forall (fun r => (exists piece, f r = Ok piece) \/ f r = Raise e) results ->
  Exists (fun r => f r = Raise e) results ->
  forall report, append_each f results report = Raise e.
Proof.
  induction 1 as [|r results [[piece Hr]|Hr] _ IH]; intros Hex report; simpl.
  - by apply Exists_nil in Hex.
  - rewrite Hr. apply IH. apply Exists_cons in Hex as [Hex|Hex]; [|done].
    congruence.
  - by rewrite Hr.
Qed.

(** X5. [_combine_reports] reads the clock once and does nothing else to
    the outside.  It returns a report when every result has a prompt with
    [text]; a result whose prompt has none makes it raise the key error
    for [text].  No other entry of a prompt is needed. *)
Theorem combine_reports_needs_text U E self results tr :
  (Forall (fun r => has_text (pr_prompt r)) results ->
   exists combined,
     _combine_reports U E self results tr
     = (Ok combined, tr ++ [EClock (strftime E tr)]))
  /\ (Exists (fun r => pr_prompt r !! "text" = None) results ->
      _combine_reports U E self results tr
      = (Raise (KeyError "text"), tr ++ [EClock (strftime E tr)])).
Proof.
  split.
  - intros Hall. unfold _combine_reports, time_strftime.
    rewrite bind_run. cbv beta iota zeta. rewrite bind_run. unfold lift.
    destruct (append_each_all (summary_row U) results) with
      (report := report_header self (strftime E tr) (length results))
      as [table ->].
    { eapply Forall_impl; [done|]. intros r [text_ Hr].
      pose proof (summary_row_text U r) as Hrow. by rewrite Hr in Hrow. }
    destruct (append_each_all prompt_section results) with
      (report := table ++ nl) as [out ->]; [|by exists out].
    eapply Forall_impl; [done|]. intros r [text_ Hr].
    pose proof (prompt_section_text r) as Hsec. by rewrite Hr in Hsec.
  - intros Hex. unfold _combine_reports, time_strftime.
    rewrite bind_run. cbv beta iota zeta. rewrite bind_run. unfold lift.
    rewrite (append_each_raises (summary_row U) results (KeyError "text"));
      [done| |].
    + apply Forall_forall. intros r _.
      pose proof (summary_row_text U r) as Hrow.
      destruct (pr_prompt r !! "text"); auto.
    + eapply Exists_impl; [done|]. intros r Hr.
      pose proof (summary_row_text U r) as Hrow. by rewrite Hr in Hrow.
Qed.

Lemma format_first_missing t content :
  match first_missing t content with
  | Some name => format t content = Raise (KeyError name)
  | None => exists prompt, format t content = Ok prompt
  end.
Proof.
  induction t as [|[s|name] t IH]; simpl.
  - eauto.
  - destruct (first_missing t content) as [missing|].
    + by rewrite IH.
    + destruct IH as [rest ->]. eauto.
  - destruct (assoc_get name content) as [v|]; [|done].
    destruct (first_missing t content) as [missing|].
    + by rewrite IH.
    + destruct IH as [rest ->]. eauto.
Qed.

(** X6. [chunk_and_process] calls the judge exactly when every replacement
    field of the template has an entry in [content].  Otherwise it raises
    the key error for the first field, in the order of the template, that
    has none, and nothing is sent.  When it calls, the trace grows by
    requests to the judge only, and by at least one. *)
Theorem chunk_and_process_placeholders E self t content budget tr :
  (forall name,
      first_missing t content = Some name ->
      chunk_and_process E self t content budget tr
      = (Raise (KeyError name), tr))
  /\ (first_missing t content = None ->
      exists res delta,
        chunk_and_process E self t content budget tr = (res, tr ++ delta)
        /\ delta <> [] /\ Forall is_post delta).
Proof.
  pose proof (format_first_missing t content) as Hfmt. split.
  - intros name Hmissing. rewrite Hmissing in Hfmt.
    unfold chunk_and_process. by rewrite Hfmt.
  - intros Hnone. rewrite Hnone in Hfmt. destruct Hfmt as [prompt Hfmt].
    destruct (chunk_and_process E self t content budget tr) as [res tr']
      eqn:Hrun.
    destruct (chunk_and_process_posts _ _ _ _ _ _ _ _ Hrun)
      as (delta & -> & Hposts & _ & _).
    exists res, delta. split_and!; [done| |done].
    intros ->. rewrite app_nil_r in Hrun.
    by eapply chunk_and_process_calls in Hrun.
Qed.

Lemma for_each_summarize_small E self content tr :
  Forall (fun item => is_large item.2 = false) content ->
  for_each (summarize_item E self) content tr = (Ok content, tr).
Proof.
  induction 1 as [|[key value] content Hsmall _ IH]; [done|].
  cbn [for_each]. rewrite bind_run, summarize_item_run.
  simpl in Hsmall. rewrite Hsmall, bind_run, IH. reflexivity.
Qed.

(** X7. When the rendered prompt exceeds the budget and no field is longer
    than 8000 characters, nothing is summarized: [chunk_and_process] makes
    the single call [generate_text] on the note followed by the very text
    that exceeded the budget. *)
Theorem chunk_and_process_note_only E self t content budget tr prompt :
  format t content = Ok prompt ->
  (inject_Z (default default_max_tokens_per_chunk budget)
   < Z.of_nat (length prompt) # 4)%Q ->
  Forall (fun item => is_large item.2 = false) content ->
  let rq := request_of self (summarized_note ++ prompt) default_max_tokens in
  let answer := requests_post E tr rq in
  chunk_and_process E self t content budget tr
  = (read_response (provider self) answer, tr ++ [EPost rq answer]).
Proof.
  intros Hfmt Hbig%fits_gt Hsmall. cbn zeta.
  unfold chunk_and_process. rewrite Hfmt, bind_lift_ok. cbn zeta.
  rewrite Hbig, bind_run, for_each_summarize_small by done.
  rewrite Hfmt, bind_lift_ok. apply generate_text_run.
Qed.

(** X8. A client that [__init__] has built sends every request of
    [generate_text] to the endpoint of its provider, authenticated with the
    key that the environment held for that provider, carrying the model it
    was built with, the prompt as it is, and the given cap or 4000. *)
Theorem constructed_client_request U E environ provider_arg model_arg self
    prompt max_tokens tr :
  LLMClient_init U environ provider_arg model_arg = Ok self ->
  exists rq answer key,
    generate_text E self prompt max_tokens tr
    = (read_response (provider self) answer, tr ++ [EPost rq answer])
    /\ answer = requests_post E tr rq
    /\ rq_model rq = model_arg
    /\ rq_content rq = prompt
    /\ rq_max_tokens rq = default 4000%Z max_tokens
    /\ key <> []
    /\ ((str_lower U provider_arg = txt "openai"
         /\ environ !! "OPENAI_API_KEY" = Some key
         /\ rq_url rq = "https://api.openai.com/v1/chat/completions"
         /\ rq_headers rq
            = [("Content-Type", txt "application/json");
               ("Authorization", txt "Bearer " ++ key)])
        \/ (str_lower U provider_arg = txt "anthropic"
            /\ environ !! "ANTHROPIC_API_KEY" = Some key
            /\ rq_url rq = "https://api.anthropic.com/v1/messages"
            /\ rq_headers rq
               = [("Content-Type", txt "application/json");
                  ("x-api-key", key);
                  ("anthropic-version", txt "2023-06-01")])).
Proof.
  intros Hinit. unfold LLMClient_init in Hinit.
  destruct (decide (str_lower U provider_arg = txt "openai")) as [Hlow|_].
  - destruct (environ !! "OPENAI_API_KEY") as [[|c key]|] eqn:Hkey;
      try done. injection Hinit as <-.
    eexists _, _, (c :: key).
    split; [apply generate_text_run|].
    split_and!; try done. by left.
  - destruct (decide (str_lower U provider_arg = txt "anthropic"))
      as [Hlow|_]; [|done].
    destruct (environ !! "ANTHROPIC_API_KEY") as [[|c key]|] eqn:Hkey;
      try done. injection Hinit as <-.
    eexists _, _, (c :: key).
    split; [apply generate_text_run|].
    split_and!; try done. by right.
Qed.

(** ** The shape of the score *)

Lemma drop_head s0 pos c s :
  drop pos s0 = c :: s ->
  s = drop (S pos) s0 /\ pos < length s0 /\ slice s0 (pos, S pos) = [c].
Proof.
  intros Hdrop.
  assert (s0 !! pos = Some c) as Hc.
  { replace pos with (pos + 0) by lia.
    by rewrite <- lookup_drop, Hdrop. }
  split_and!.
  - rewrite (drop_S _ _ _ Hc) in Hdrop. by injection Hdrop.
  - by eapply lookup_lt_Some.
  - unfold slice. simpl. replace (S pos - pos) with 1 by lia.
    by rewrite Hdrop.
Qed.

Lemma slice_empty s0 pos : slice s0 (pos, pos) = [].
Proof. unfold slice. simpl. by rewrite Nat.sub_diag. Qed.

Lemma slice_app s0 a b c :
  a <= b -> b <= c ->
  slice s0 (a, c) = slice s0 (a, b) ++ slice s0 (b, c).
Proof.
  intros Hab Hbc. unfold slice. simpl.
  replace (c - a) with ((b - a) + (c - b)) by lia.
  rewrite <- take_take_drop, drop_drop.
  by replace (a + (b - a)) with b by lia.
Qed.

Section Sound.
Context (U : unicode_db) (P : text -> Prop) (s0 : text).

Lemma lazy_star_sound {R} cl (k : text -> nat -> option R) x :
  forall s pos,
    s = drop pos s0 -> pos <= length s0 ->
    lazy_star U cl k s pos = Some x ->
    exists pos',
      pos <= pos' <= length s0
      /\ Forall (fun c => class_match U cl c = true) (slice s0 (pos, pos'))
      /\ k (drop pos' s0) pos' = Some x.
Proof.
  induction s as [|c s IH]; intros pos Hs Hpos; simpl.
  - destruct (k [] pos) eqn:Hk; [|done]. intros [= <-].
    exists pos. rewrite slice_empty, <- Hs. split_and!; done || lia.
  - destruct (k (c :: s) pos) eqn:Hk.
    + intros [= <-]. exists pos. rewrite slice_empty, <- Hs.
      split_and!; done || lia.
    + destruct (class_match U cl c) eqn:Hc; [|done].
      symmetry in Hs. apply drop_head in Hs as (Hs & Hlt & Hslice).
      intros (pos' & Hpos' & Hall & Hk')%IH; [|done|lia].
      exists pos'. split_and!; [lia|lia| |done].
      rewrite (slice_app s0 pos (S pos) pos'), Hslice by lia.
      by constructor.
Qed.

Lemma greedy_star_sound {R} cl (k : text -> nat -> option R) x :
  forall s pos,
    s = drop pos s0 -> pos <= length s0 ->
    greedy_star U cl k s pos = Some x ->
    exists pos',
      pos <= pos' <= length s0
      /\ Forall (fun c => class_match U cl c = true) (slice s0 (pos, pos'))
      /\ k (drop pos' s0) pos' = Some x.
Proof.
  assert (forall s pos, s = drop pos s0 -> pos <= length s0 ->
            k s pos = Some x ->
            exists pos',
              pos <= pos' <= length s0
              /\ Forall (fun c => class_match U cl c = true)
                   (slice s0 (pos, pos'))
              /\ k (drop pos' s0) pos' = Some x) as Hstop.
  { intros s pos -> Hpos Hk. exists pos. rewrite slice_empty.
    split_and!; done || lia. }
  induction s as [|c s IH]; intros pos Hs Hpos; simpl; [by apply Hstop|].
  destruct (class_match U cl c) eqn:Hc; [|by apply Hstop].
  destruct (greedy_star U cl k s (S pos)) eqn:Hrest; [|by apply Hstop].
  intros [= <-].
  symmetry in Hs. apply drop_head in Hs as (Hs & Hlt & Hslice).
  apply IH in Hrest as (pos' & Hpos' & Hall & Hk'); [|done|lia].
  exists pos'. split_and!; [lia|lia| |done].
  rewrite (slice_app s0 pos (S pos) pos'), Hslice by lia.
  by constructor.
Qed.

(** A successful match has read, up to the point where it hands over to
    what follows, a text of the pattern; and the marks it hands over
    delimit a text with [P] when every group matches such texts only. *)
Lemma match_here_sound r :
  groups_hold U P r ->
  forall {R} (k : text -> nat -> option (nat * nat) -> option R) pos g x,
    pos <= length s0 ->
    marks_hold P s0 g ->
    match_here U r (drop pos s0) pos g k = Some x ->
    exists pos' g',
      pos <= pos' <= length s0
      /\ matches U r (slice s0 (pos, pos'))
      /\ marks_hold P s0 g'
      /\ k (drop pos' s0) pos' g' = Some x.
Proof.
  induction r as [|cl|r1 IH1 r2 IH2|cl|cl|r1 IH1|r1 IH1];
    intros Hgroups R k pos g x Hpos Hg; simpl.
  - intros Hk. exists pos, g. rewrite slice_empty.
    split_and!; done || lia || constructor.
  - destruct (drop pos s0) as [|c s] eqn:Hs; [done|].
    destruct (class_match U cl c) eqn:Hc; [|done].
    apply drop_head in Hs as (-> & Hlt & Hslice).
    intros Hk. exists (S pos), g. rewrite Hslice.
    split_and!; done || lia || by constructor.
  - destruct Hgroups as [Hg1 Hg2].
    intros (pos1 & g1 & Hpos1 & Hm1 & Hmarks1 & H2)%IH1; [|done..].
    apply IH2 in H2 as (pos2 & g2 & Hpos2 & Hm2 & Hmarks2 & Hk);
      [|done|lia|done].
    exists pos2, g2. split_and!; [lia|lia| |done|done].
    rewrite (slice_app s0 pos pos1 pos2) by lia. by constructor.
  - intros (pos' & Hpos' & Hall & Hk)%lazy_star_sound; [|done..].
    exists pos', g. split_and!; [lia|lia|by constructor|done|done].
  - destruct (drop pos s0) as [|c s] eqn:Hs; [done|].
    destruct (class_match U cl c) eqn:Hc; [|done].
    apply drop_head in Hs as (-> & Hlt & Hslice).
    intros (pos' & Hpos' & Hall & Hk)%greedy_star_sound; [|done|lia].
    exists pos', g. split_and!; [lia|lia| |done|done].
    rewrite (slice_app s0 pos (S pos) pos'), Hslice by lia.
    constructor. by constructor.
  - destruct (match_here U r1 (drop pos s0) pos g k) eqn:H1.
    + intros [= <-].
      apply IH1 in H1 as (pos1 & g1 & Hpos1 & Hm1 & Hmarks1 & Hk);
        [|done..].
      exists pos1, g1. split_and!; [lia|lia|by constructor|done|done].
    + intros Hk. exists pos, g. rewrite slice_empty.
      split_and!; done || lia || constructor.
  - destruct Hgroups as [HP Hg1].
    intros (pos1 & g1 & Hpos1 & Hm1 & _ & Hk)%IH1; [|done..].
    exists pos1, (Some (pos, pos1)).
    split_and!; [lia|lia|by constructor| |done].
    intros marks [= <-]. by apply HP.
Qed.

End Sound.

Lemma match_at_sound U P r s g :
  groups_hold U P r ->
  match_at U r s = Some g ->
  forall t, g = Some t -> P t.
Proof.
  intros Hgroups Hat t ->. unfold match_at in Hat.
  apply (match_here_sound U P s r Hgroups _ 0 None) in Hat
    as (pos' & g' & _ & _ & Hmarks & Hk); [|lia|done].
  destruct g' as [marks|]; [|done].
  injection Hk as <-. by apply Hmarks.
Qed.

Lemma search_sound U P r s g :
  groups_hold U P r ->
  search U r s = Some g ->
  forall t, g = Some t -> P t.
Proof.
  intros Hgroups. induction s as [|c s IH]; simpl;
    destruct (match_at U r _) eqn:Hat;
    try (intros [= <-]; by eapply match_at_sound); done.
Qed.

Lemma groups_hold_lit U P s : groups_hold U P (lit s).
Proof.
  unfold lit. induction (txt s) as [|c w IH]; simpl; [done|].
  split; [|done]. unfold lit_char. by destruct (ascii_islower (ascii_tolower c)).
Qed.

Lemma groups_hold_cat U P rs :
  Forall (groups_hold U P) rs -> groups_hold U P (cat rs).
Proof. induction 1; simpl; done. Qed.

Lemma number_group_texts U w :
  matches U
    (RSeq (RPlus CDigit) (ROpt (RSeq (RChar (CExact 46)) (RPlus CDigit)))) w ->
  is_number U w.
Proof.
  intros Hm.
  inversion Hm as [| |? ? whole fraction Hwhole Hfraction| | | | |]; subst.
  exists whole, fraction. split; [done|].
  inversion Hwhole as [| | | |? d1 ds1 Hdigits1| | |]; subst.
  split; [done|]. split; [done|].
  inversion Hfraction as [| | | | | |? ? Hsome|]; subst; [by left|].
  right.
  inversion Hsome as [| |? ? dot digits Hdot Hdigits2| | | | |]; subst.
  inversion Hdot as [|? d Hd| | | | | |]; subst.
  inversion Hdigits2 as [| | | |? d2 ds2 Hall2| | |]; subst.
  simpl in Hd. apply N.eqb_eq in Hd as ->.
  by exists (d2 :: ds2).
Qed.

Lemma score_patterns_number U p :
  p ∈ score_patterns -> groups_hold U (is_number U) p.
Proof.
  assert (groups_hold U (is_number U) number_group) as Hnumber.
  { split; [apply number_group_texts|done]. }
  unfold score_patterns. rewrite !elem_of_cons, elem_of_nil.
  intros [->|[->|[->|[->|[->|[->|[]]]]]]];
    apply groups_hold_cat;
    repeat (apply Forall_cons_2;
            [first [exact Hnumber|apply groups_hold_lit|exact I]|]);
    apply Forall_nil_2.
Qed.

Lemma first_score_shape U report pats :
  Forall (fun p => has_group p = true /\ groups_hold U (is_number U) p) pats ->
  first_score U pats report = txt "N/A"
  \/ is_number U (first_score U pats report).
Proof.
  induction 1 as [|p pats [Hgroup Hnumber] _ IH]; simpl; [by left|].
  destruct (search U p report) as [g|] eqn:Hsearch; [|done].
  right. destruct (search_group U p report g Hgroup Hsearch) as [t ->].
  simpl. exact (search_sound U _ p report (Some t) Hnumber Hsearch t eq_refl).
Qed.

Lemma is_number_chars U w c :
  is_number U w -> c ∈ w -> py_isdecimal U c = true \/ c = 46%N.
Proof.
  intros (whole & fraction & -> & _ & Hwhole & Hfraction) Hin.
  apply elem_of_app in Hin as [Hin|Hin].
  - left. by eapply Forall_forall in Hwhole.
  - destruct Hfraction as [->|(digits & -> & _ & Hdigits)].
    + by apply elem_of_nil in Hin.
    + apply elem_of_cons in Hin as [->|Hin]; [by right|].
      left. by eapply Forall_forall in Hdigits.
Qed.

(** X9. The score cell is either [N/A] or a number: one or more decimal
    digits, possibly followed by a dot and one or more decimal digits.  In
    particular it holds no newline and no vertical bar, whatever the report
    says. *)
Theorem extract_score_shape U report :
  (extract_score U report = txt "N/A" \/ is_number U (extract_score U report))
  /\ (10%N ∉ extract_score U report)
  /\ (124%N ∉ extract_score U report).
Proof.
  assert (extract_score U report = txt "N/A"
          \/ is_number U (extract_score U report)) as Hshape.
  { apply first_score_shape. apply Forall_forall. intros p Hp.
    split; [by apply score_patterns_group|by apply score_patterns_number]. }
  split; [done|].
  destruct Hshape as [->|Hnumber].
  - split; vm_compute; intros Hin;
      repeat (apply elem_of_cons in Hin as [Hin|Hin]; [done|]);
      by apply elem_of_nil in Hin.
  - split; intros Hin;
      destruct (is_number_chars U _ _ Hnumber Hin) as [Hd|Hd]; done.
Qed.

(** ** The case of the report *)

Ltac compare_chars :=
  repeat match goal with
         | |- context [(?a <? ?b)%N] => destruct (N.ltb_spec a b)
         | |- context [(?a <=? ?b)%N] => destruct (N.leb_spec a b)
         | |- context [(?a =? ?b)%N] => destruct (N.eqb_spec a b)
         | H : context [(?a <? ?b)%N] |- _ => destruct (N.ltb_spec a b)
         | H : context [(?a <=? ?b)%N] |- _ => destruct (N.leb_spec a b)
         | H : context [(?a =? ?b)%N] |- _ => destruct (N.eqb_spec a b)
         end;
  simpl in *; try done; try lia.

Lemma same_letter_class U cl c c' :
  class_case_blind cl -> same_letter c c' ->
  class_match U cl c = class_match U cl c'.
Proof.
  unfold same_letter, ascii_tolower, ascii_isupper.
  intros Hcl Hsame.
  destruct (N.eq_dec c c') as [->|Hne]; [done|].
  destruct cl as [p|p| |]; simpl.
  - destruct Hcl as [Hnu Hnl]. unfold ascii_isupper, ascii_islower in *.
    compare_chars.
  - unfold py_tolower, is_ascii, ascii_tolower, ascii_isupper.
    compare_chars; try (exfalso; lia); try (f_equal; f_equal; lia).
  - compare_chars.
  - unfold py_isdecimal, is_ascii, ascii_isdigit. compare_chars.
Qed.

Section Case.
Context (U : unicode_db) {X X' : Type} (RX : X -> X' -> Prop).

Lemma lazy_star_case cl (k : text -> nat -> option X)
    (k' : text -> nat -> option X') :
  class_case_blind cl ->
  (forall t t' pos, Forall2 same_letter t t' ->
                    option_Forall2 RX (k t pos) (k' t' pos)) ->
  forall s s' pos,
    Forall2 same_letter s s' ->
    option_Forall2 RX (lazy_star U cl k s pos) (lazy_star U cl k' s' pos).
Proof.
  intros Hcl Hk s s' pos Hs. revert pos.
  induction Hs as [|c c' s s' Hc Hs IH]; intros pos; simpl.
  - destruct (Hk [] [] pos) as [x x' Hx|]; by constructor.
  - destruct (Hk (c :: s) (c' :: s') pos) as [x x' Hx|];
      [by constructor|by constructor|].
    rewrite (same_letter_class U cl c c') by done.
    destruct (class_match U cl c'); [apply IH|constructor].
Qed.

Lemma greedy_star_case cl (k : text -> nat -> option X)
    (k' : text -> nat -> option X') :
  class_case_blind cl ->
  (forall t t' pos, Forall2 same_letter t t' ->
                    option_Forall2 RX (k t pos) (k' t' pos)) ->
  forall s s' pos,
    Forall2 same_letter s s' ->
    option_Forall2 RX (greedy_star U cl k s pos)
      (greedy_star U cl k' s' pos).
Proof.
  intros Hcl Hk s s' pos Hs. revert pos.
  induction Hs as [|c c' s s' Hc Hs IH]; intros pos; simpl.
  - apply Hk. constructor.
  - rewrite (same_letter_class U cl c c') by done.
    destruct (class_match U cl c'); [|apply Hk; by constructor].
    destruct (IH (S pos)) as [x x' Hx|]; [by constructor|].
    apply Hk. by constructor.
Qed.
End Case.

(** Matching two texts that differ in ASCII case only goes the same way. *)
Lemma match_here_case U r :
  case_blind r ->
  forall {X X'} (RX : X -> X' -> Prop)
         (k : text -> nat -> option (nat * nat) -> option X)
         (k' : text -> nat -> option (nat * nat) -> option X') s s' pos g,
    (forall t t' pos g, Forall2 same_letter t t' ->
                        option_Forall2 RX (k t pos g) (k' t' pos g)) ->
    Forall2 same_letter s s' ->
    option_Forall2 RX (match_here U r s pos g k) (match_here U r s' pos g k').
Proof.
  induction r as [|cl|r1 IH1 r2 IH2|cl|cl|r1 IH1|r1 IH1];
    intros Hblind X X' RX k k' s s' pos g Hk Hs; simpl in *.
  - by apply Hk.
  - destruct Hs as [|c c' s s' Hc Hs]; [constructor|].
    rewrite (same_letter_class U cl c c') by done.
    destruct (class_match U cl c'); [by apply Hk|constructor].
  - destruct Hblind as [Hb1 Hb2]. apply IH1; [done| |done].
    intros t t' pos' g' Ht. by apply IH2.
  - apply lazy_star_case; [done| |done]. intros t t' pos' Ht. by apply Hk.
  - destruct Hs as [|c c' s s' Hc Hs]; [constructor|].
    rewrite (same_letter_class U cl c c') by done.
    destruct (class_match U cl c'); [|constructor].
    apply greedy_star_case; [done| |done]. intros t t' pos' Ht. by apply Hk.
  - destruct (IH1 Hblind X X' RX k k' s s' pos g Hk Hs) as [x x' Hx|];
      [by constructor|by apply Hk].
  - apply IH1; [done| |done]. intros t t' pos' g' Ht. by apply Hk.
Qed.

Lemma match_at_case U r s s' :
  case_blind r -> Forall2 same_letter s s' ->
  option_Forall2 same_group (match_at U r s) (match_at U r s').
Proof.
  intros Hblind Hs. unfold match_at.
  apply match_here_case; [done| |done].
  intros _ _ _ g _. constructor.
  destruct g as [marks|]; constructor.
  unfold slice. by apply Forall2_take, Forall2_drop.
Qed.

Lemma search_case U r s s' :
  case_blind r -> Forall2 same_letter s s' ->
  option_Forall2 same_group (search U r s) (search U r s').
Proof.
  intros Hblind Hs.
  induction Hs as [|c c' s s' Hc Hs IH]; simpl.
  - destruct (match_at U r []) as [[t|]|]; repeat constructor.
    by apply Forall_Forall2_diag, Forall_true.
  - assert (Forall2 same_letter (c :: s) (c' :: s')) as Hcons
      by by constructor.
    pose proof (match_at_case U r (c :: s) (c' :: s') Hblind Hcons) as Hat.
    destruct Hat as [g g' Hg|]; [by constructor|done].
Qed.

Lemma same_letter_digit U c c' :
  py_isdecimal U c = true \/ c = 46%N -> same_letter c c' -> c = c'.
Proof.
  unfold same_letter, ascii_tolower, ascii_isupper, py_isdecimal, is_ascii,
    ascii_isdigit.
  intros [Hc| ->] Hsame; compare_chars.
Qed.

Lemma same_letter_chars U t t' :
  Forall (fun c => py_isdecimal U c = true \/ c = 46%N) t ->
  Forall2 same_letter t t' -> t = t'.
Proof.
  intros Hchars Hsame.
  induction Hsame as [|c c' t t' Hc Hsame IH]; [done|].
  apply Forall_cons in Hchars as [Hchar Hchars].
  f_equal; [by eapply (same_letter_digit U)|by apply IH].
Qed.

Lemma same_letter_number U t t' :
  is_number U t -> Forall2 same_letter t t' -> t = t'.
Proof.
  intros Hnumber. apply (same_letter_chars U).
  apply Forall_forall. intros c Hc. by eapply is_number_chars.
Qed.

Lemma case_blind_lit s : case_blind (lit s).
Proof.
  unfold lit. induction (txt s) as [|c w IH]; simpl; [done|].
  split; [|done]. unfold lit_char. cbn zeta.
  destruct (ascii_islower (ascii_tolower c)) eqn:Hlower; simpl; [done|].
  split; [|done]. clear. unfold ascii_tolower, ascii_isupper.
  compare_chars.
Qed.

Lemma case_blind_cat rs : Forall case_blind rs -> case_blind (cat rs).
Proof. induction 1; simpl; done. Qed.

Lemma score_patterns_case_blind p : p ∈ score_patterns -> case_blind p.
Proof.
  assert (case_blind number_group) as Hnumber by (simpl; done).
  unfold score_patterns. rewrite !elem_of_cons, elem_of_nil.
  intros [->|[->|[->|[->|[->|[->|[]]]]]]];
    apply case_blind_cat;
    repeat (apply Forall_cons_2;
            [first [exact Hnumber|apply case_blind_lit|exact I]|]);
    apply Forall_nil_2.
Qed.

Lemma first_score_case U report report' pats :
  Forall (fun p => case_blind p /\ has_group p = true
                   /\ groups_hold U (is_number U) p) pats ->
  Forall2 same_letter report report' ->
  first_score U pats report = first_score U pats report'.
Proof.
  intros Hpats Hsame.
  induction Hpats as [|p pats (Hblind & Hgroup & Hnumber) _ IH]; [done|].
  simpl.
  pose proof (search_case U p report report' Hblind Hsame) as Hsearch.
  destruct (search U p report) as [g|] eqn:Hg;
    destruct (search U p report') as [g'|] eqn:Hg';
    inversion Hsearch as [? ? Hgroups|]; subst; [|done].
  destruct (search_group U p report g Hgroup Hg) as [t ->].
  inversion Hgroups as [? t' Ht|]; subst. simpl.
  eapply same_letter_number; [|done].
  exact (search_sound U _ p report (Some t) Hnumber Hg t eq_refl).
Qed.

(** X10. The score cell does not depend on the case of the ASCII letters
    of the report: two reports that differ only in that have the same
    cell. *)
Theorem extract_score_ignores_case U report report' :
  Forall2 (fun c c' => ascii_tolower c = ascii_tolower c') report report' ->
  extract_score U report = extract_score U report'.
Proof.
  intros Hsame. apply first_score_case; [|done].
  apply Forall_forall. intros p Hp. split_and!.
  - by apply score_patterns_case_blind.
  - by apply score_patterns_group.
  - by apply score_patterns_number.
Qed.

(** ** The command line *)

Lemma emits_weaken {A} (P Q : event -> Prop) (m : M A) :
  (forall e, P e -> Q e) -> emits P m -> emits Q m.
Proof.
  intros HPQ Hm tr. destruct (Hm tr) as (delta & Htr & Hdelta).
  exists delta. split; [done|]. by eapply Forall_impl.
Qed.

Lemma run_tests_extends U E self prompts_path tr res tr' :
  run_tests U E self prompts_path tr = (res, tr') ->
  exists delta, tr' = tr ++ delta.
Proof.
  intros Hrun.
  assert (emits (fun _ => True) (run_tests U E self prompts_path)) as Hemits.
  { unfold run_tests, load_prompts, print. repeat emits_step.
    match goal with |- context [match ?l with _ => _ end] => destruct l end;
      repeat emits_step.
    - eapply emits_weaken; [|apply test_prompt_no_write]. done.
    - eapply emits_weaken; [|apply combine_reports_no_write]. done. }
  destruct (emits_run _ _ _ _ _ Hemits Hrun) as (delta & -> & _). eauto.
Qed.

Lemma run_tests_empty U E self prompts_path tr doc :
  load_yaml E tr prompts_path = Ok doc ->
  take 5 (default [] (doc !! "prompts")) = [] ->
  run_tests U E self prompts_path tr
  = (Ok (txt "Error: No prompts found in the specified file."),
     tr ++ [ERead prompts_path (Ok doc)]).
Proof.
  intros Hdoc Hnone. unfold run_tests.
  rewrite bind_run, load_prompts_run, Hdoc. cbv beta iota zeta.
  by rewrite Hnone.
Qed.

Lemma main_checked U E environ path_exists load_config args tr :
  path_exists (args_prompts_file args) = true ->
  path_exists (default (txt "config.yaml") (args_config args)) = true ->
  main U E environ path_exists load_config (Namespace args) tr
  = match ReliabilityTester_init U environ
            (load_config (default (txt "config.yaml") (args_config args)))
    with
    | Raise e => (Ok 1%Z, tr ++ [EPrint (txt "Error: " ++ str_exn e)])
    | Ok tester =>
        match run_tests U E tester.1 (args_prompts_file args) tr with
        | (Ok report, tr') => (Ok 0%Z, tr' ++ report_lines report)
        | (Raise e, tr') =>
            (Ok 1%Z, tr' ++ [EPrint (txt "Error: " ++ str_exn e)])
        end
    end.
Proof.
  intros Hprompts Hconfig. unfold main. cbn zeta.
  rewrite Hprompts, Hconfig. unfold try_except.
  cbv beta iota delta [negb].
  destruct (ReliabilityTester_init _ _ _) as [tester|e].
  - rewrite bind_lift_ok, bind_run.
    destruct (run_tests U E tester.1 (args_prompts_file args) tr)
      as [[report|e] tr'].
    + unfold print, emit, ret, report_lines. rewrite !bind_run.
      by rewrite <- !app_assoc.
    + reflexivity.
  - rewrite bind_lift_raise. reflexivity.
Qed.


(** X12. When both files exist, the tester is constructed and the prompts
    document has no prompts, [main] prints the message of [run_tests] under
    the banner and ends with exit status 0: nothing was tested and nothing
    was written, and the status does not say so. *)
Theorem main_without_prompts U E environ path_exists load_config args tr
    tester doc :
  path_exists (args_prompts_file args) = true ->
  path_exists (default (txt "config.yaml") (args_config args)) = true ->
  ReliabilityTester_init U environ
    (load_config (default (txt "config.yaml") (args_config args)))
  = Ok tester ->
  load_yaml E tr (args_prompts_file args) = Ok doc ->
  doc !! "prompts" = None \/ doc !! "prompts" = Some [] ->
  main U E environ path_exists load_config (Namespace args) tr
  = (Ok 0%Z,
     tr ++ ERead (args_prompts_file args) (Ok doc)
        :: report_lines
             (txt "Error: No prompts found in the specified file.")).
Proof.
  intros Hprompts Hconfig Hinit Hdoc Hnone.
  rewrite main_checked, Hinit by done.
  rewrite (run_tests_empty U E tester.1 _ tr doc Hdoc).
  - by rewrite <- app_assoc.
  - by destruct Hnone as [-> | ->].
Qed.

(** X13. Construction of the tester from a configuration that loaded
    succeeds exactly when the configuration names a provider and a model,
    the provider is [openai] or [anthropic] in any case and its API key is
    in the environment and not empty, and [advanced] gives both
    [repeat_count] and [max_tokens_per_call].  A tester that was
    constructed holds these two numbers as they are, whatever they are, the
    provider and the model as the configuration has them, and
    [report_path] when there is one. *)
Theorem tester_init_succeeds U environ cfg :
  ((exists tester, ReliabilityTester_init U environ (Ok cfg) = Ok tester)
   <-> (exists provider_arg model_arg advanced count budget,
          cfg_llm_provider cfg = Some provider_arg
          /\ cfg_llm_model cfg = Some model_arg
          /\ provider_ready U environ provider_arg
          /\ cfg_advanced cfg = Some advanced
          /\ adv_repeat_count advanced = Some count
          /\ adv_max_tokens_per_call advanced = Some budget))
  /\ (forall tester,
        ReliabilityTester_init U environ (Ok cfg) = Ok tester ->
        exists advanced,
          cfg_advanced cfg = Some advanced
          /\ adv_repeat_count advanced = Some (repeat_count tester.1)
          /\ adv_max_tokens_per_call advanced
             = Some (max_tokens_per_call tester.1)
          /\ report_path (config tester.1) = cfg_report_path cfg
          /\ cfg_llm_provider cfg = Some (llm_provider (config tester.1))
          /\ cfg_llm_model cfg = Some (llm_model (config tester.1))
          /\ model (llm_client tester.1) = llm_model (config tester.1)).
Proof.
  split; [split|].
  - intros [tester Hinit]. unfold ReliabilityTester_init in Hinit.
    destruct (cfg_llm_provider cfg) as [provider_arg|] eqn:Hp; [|done].
    destruct (cfg_llm_model cfg) as [model_arg|] eqn:Hm; [|done].
    destruct (LLMClient_init U environ provider_arg model_arg)
      as [client|] eqn:Hclient; [|done].
    destruct (cfg_advanced cfg) as [advanced|] eqn:Ha; [|done].
    destruct (adv_repeat_count advanced) as [count|] eqn:Hc; [|done].
    destruct (adv_max_tokens_per_call advanced) as [budget|] eqn:Hb; [|done].
    exists provider_arg, model_arg, advanced, count, budget.
    split_and!; try done.
    unfold LLMClient_init, provider_ready in *.
    repeat case_decide; try done;
      destruct (missing _) eqn:Hmissing; try done; auto.
  - intros (provider_arg & model_arg & advanced & count & budget
            & Hp & Hm & Hready & Ha & Hc & Hb).
    unfold ReliabilityTester_init. rewrite Hp, Hm.
    destruct Hready as [[Hlow Hkey]|[Hlow Hkey]].
    + rewrite (init_openai U environ provider_arg model_arg Hlow), Hkey.
      cbn zeta. rewrite Ha, Hc, Hb. by eexists.
    + rewrite (init_anthropic U environ provider_arg model_arg Hlow), Hkey.
      cbn zeta. rewrite Ha, Hc, Hb. by eexists.
  - intros tester Hinit. unfold ReliabilityTester_init in Hinit.
    destruct (cfg_llm_provider cfg) as [provider_arg|] eqn:Hp; [|done].
    destruct (cfg_llm_model cfg) as [model_arg|] eqn:Hm; [|done].
    destruct (LLMClient_init U environ provider_arg model_arg)
      as [client|] eqn:Hclient; [|done].
    destruct (cfg_advanced cfg) as [advanced|] eqn:Ha; [|done].
    destruct (adv_repeat_count advanced) as [count|] eqn:Hc; [|done].
    destruct (adv_max_tokens_per_call advanced) as [budget|] eqn:Hb; [|done].
    cbn zeta in Hinit. injection Hinit as <-.
    exists advanced. simpl. split_and!; try done.
    by apply init_provider_name in Hclient as [_ ->].
Qed.

(** ** An agent that answers a query the same way every time *)

Lemma repeat_loop_steady E self query response n :
  (forall tr0, agent_execute_query E tr0 query = Ok response) ->
  forall i tr,
    for_each (repeat_run E self query) (seq i n) tr
    = (Ok (replicate n response),
       tr ++ runs_events self query i (replicate n response)).
Proof.
  intros Hsteady. induction n as [|n IH]; intros i tr.
  - simpl. by rewrite app_nil_r.
  - cbn [seq for_each replicate runs_events].
    rewrite bind_run, repeat_run_run. cbn zeta. rewrite Hsteady.
    rewrite bind_run, IH. unfold ret. by rewrite <- app_assoc.
Qed.

(** X14. With an agent that answers the text of the prompt the same way
    whenever it is asked, as the placeholder of [agent_wrapper.py] does,
    the repeatability evaluation of [test_prompt] gets [repeat_count]
    copies of the response that the visibility evaluation got. *)
Theorem test_prompt_steady_agent E self prompt query response tr res tr' :
  prompt !! "text" = Some query ->
  (forall tr0, agent_execute_query E tr0 query = Ok response) ->
  test_prompt E self prompt tr = (res, tr') ->
  (exists visibility_evaluation tr_v,
      evaluate_visibility E self query response
        (tr ++ first_query_events prompt query (Ok response))
      = (Ok visibility_evaluation, tr_v)
      /\ (res, tr')
         = after_repeats E self prompt query visibility_evaluation
             (replicate (Z.to_nat (repeat_count self)) response)
             (tr_v ++ repeatability_line self
                   :: runs_events self query 0
                        (replicate (Z.to_nat (repeat_count self)) response)))
  \/ (exists e,
      res = Raise e
      /\ evaluate_visibility E self query response
           (tr ++ first_query_events prompt query (Ok response))
         = (Raise e, tr')).
Proof.
  intros Htext Hsteady Hrun. unfold test_prompt in Hrun.
  unfold getitem in Hrun. rewrite Htext, bind_lift_ok in Hrun.
  unfold print, emit, execute_query, call in Hrun.
  rewrite !bind_run in Hrun. rewrite <- !app_assoc in Hrun.
  simpl app in Hrun. rewrite Hsteady in Hrun.
  fold (first_query_events prompt query (Ok response)) in Hrun.
  rewrite bind_run in Hrun.
  destruct (evaluate_visibility E self query response _)
    as [[visibility_evaluation|e] tr_v] eqn:Hvis.
  - left. exists visibility_evaluation, tr_v. split; [done|].
    rewrite !bind_run in Hrun. fold (repeatability_line self) in Hrun.
    unfold range in Hrun.
    rewrite (repeat_loop_steady E self query response) in Hrun by done.
    rewrite <- Hrun, <- app_assoc. reflexivity.
  - right. exists e. by apply pair_equal_spec in Hrun as [<- <-].
Qed.

(** ** The further statements at concrete inputs *)

Lemma repeat_count_below_five_witness :
  (repeat_count short_tester < 5)%Z
  /\ load_yaml demo_env [] (txt "prompts.yaml") = Ok two_prompts
  /\ demo_prompt ∈ take 5 (default [] (two_prompts !! "prompts"))
  /\ exists e delta,
      short_run.1 = Raise e /\ short_run.2 = [] ++ delta
      /\ Forall not_write delta.
Proof.
  assert (demo_prompt ∈ take 5 (default [] (two_prompts !! "prompts")))
    as Hin by (apply (list_elem_of_lookup_2 _ 0); reflexivity).
  split_and!; [by vm_compute|reflexivity|exact Hin|].
  apply (repeat_count_below_five ascii_db demo_env short_tester
           (txt "prompts.yaml") [] two_prompts demo_prompt);
    [by vm_compute|reflexivity|exact Hin|apply surjective_pairing].
Defined.

Lemma prompt_without_text_witness :
  load_yaml textless_env [] (txt "prompts.yaml") = Ok textless_doc
  /\ textless_prompt ∈ take 5 (default [] (textless_doc !! "prompts"))
  /\ textless_prompt !! "text" = None
  /\ textless_run.1 = Raise (KeyError "text")
  /\ textless_run.2
     = [] ++ [ERead (txt "prompts.yaml") (Ok textless_doc);
              running_line [textless_prompt]].
Proof.
  assert (textless_prompt ∈ take 5 (default [] (textless_doc !! "prompts")))
    as Hin by (apply (list_elem_of_lookup_2 _ 0); reflexivity).
  destruct (prompt_without_text ascii_db textless_env demo_tester
              (txt "prompts.yaml") [] textless_doc textless_prompt
              textless_run.1 textless_run.2 eq_refl Hin eq_refl
              (surjective_pairing _)) as (_ & _ & Hfirst).
  destruct (Hfirst [] eq_refl) as [Hres Htr].
  split_and!; [reflexivity|exact Hin|reflexivity|exact Hres|exact Htr].
Defined.

Lemma run_tests_calls_witness :
  demo_run = (Ok demo_report, demo_run.2)
  /\ exists doc before deltas after,
      load_yaml demo_env [] (txt "prompts.yaml") = Ok doc
      /\ demo_run.2 = [] ++ before ++ concat deltas ++ after
      /\ queries (before ++ after) = []
      /\ sleeps (before ++ after) = []
      /\ posts (before ++ after) = []
      /\ Forall2 (fun prompt delta =>
                    exists query,
                      prompt !! "text" = Some query
                      /\ queries delta
                         = replicate
                             (S (Z.to_nat (repeat_count demo_tester))) query
                      /\ sleeps delta
                         = replicate (Z.to_nat (repeat_count demo_tester))
                             1%Z
                      /\ 3 <= length (posts delta) <= 13)
           (take 5 (default [] (doc !! "prompts"))) deltas.
Proof.
  assert (demo_run = (Ok demo_report, demo_run.2)) as Hrun
    by (vm_compute; reflexivity).
  split; [exact Hrun|].
  exact (run_tests_calls ascii_db demo_env demo_tester (txt "prompts.yaml")
           [] demo_report demo_run.2 Hrun).
Defined.

Lemma run_tests_report_witness :
  load_yaml demo_env [] (txt "prompts.yaml") = Ok two_prompts
  /\ demo_run = (Ok demo_report, demo_run.2)
  /\ exists p ps results now rows sections,
      two_prompts !! "prompts" = Some (p :: ps)
      /\ pr_prompt <$> results = take 5 (p :: ps)
      /\ EClock now ∈ demo_run.2
      /\ Forall2 (fun r row => summary_row ascii_db r = Ok row) results rows
      /\ Forall2 (fun r section => prompt_section r = Ok section)
           results sections
      /\ demo_report
         = report_header demo_tester now (length (take 5 (p :: ps)))
             ++ concat rows ++ nl ++ concat sections.
Proof.
  assert (demo_run = (Ok demo_report, demo_run.2)) as Hrun
    by (vm_compute; reflexivity).
  split; [reflexivity|]. split; [exact Hrun|].
  assert (exists p ps, two_prompts !! "prompts" = Some (p :: ps))
    as (p & ps & Hprompts) by (eexists _, _; vm_compute; reflexivity).
  destruct (run_tests_report ascii_db demo_env demo_tester
              (txt "prompts.yaml") [] two_prompts p ps demo_report
              demo_run.2 eq_refl Hprompts Hrun)
    as (results & now & rows & sections & Hconclusion).
  exists p, ps, results, now, rows, sections.
  split; [exact Hprompts|exact Hconclusion].
Defined.

Lemma combine_reports_needs_text_witness :
  Forall (fun r => has_text (pr_prompt r)) [demo_result]
  /\ exists combined,
      _combine_reports ascii_db demo_env demo_tester [demo_result] []
      = (Ok combined, [] ++ [EClock (strftime demo_env [])]).
Proof.
  assert (Forall (fun r => has_text (pr_prompt r)) [demo_result]) as Hall.
  { repeat constructor. by eexists. }
  split; [exact Hall|].
  exact (proj1 (combine_reports_needs_text ascii_db demo_env demo_tester
                  [demo_result] []) Hall).
Defined.

Lemma chunk_and_process_placeholders_witness :
  first_missing small_template [("question", txt "why?")] = Some "answer"
  /\ chunk_and_process demo_env demo_client small_template
       [("question", txt "why?")] None []
     = (Raise (KeyError "answer"), []).
Proof.
  split; [reflexivity|].
  apply (proj1 (chunk_and_process_placeholders demo_env demo_client
                  small_template [("question", txt "why?")] None [])).
  reflexivity.
Defined.

Lemma chunk_and_process_note_only_witness :
  format small_template small_content = Ok (txt "Q: why? A: because")
  /\ (inject_Z (default default_max_tokens_per_chunk (Some 1%Z))
      < Z.of_nat (length (txt "Q: why? A: because")) # 4)%Q
  /\ Forall (fun item => is_large item.2 = false) small_content
  /\ chunk_and_process demo_env demo_client small_template small_content
       (Some 1%Z) []
     = (Ok canned_report,
        [EPost (request_of demo_client
                  (summarized_note ++ txt "Q: why? A: because") 4000)
           (Ok canned_response)]).
Proof.
  assert (Forall (fun item => is_large item.2 = false) small_content)
    as Hsmall by (repeat constructor).
  split_and!; [reflexivity|by vm_compute|exact Hsmall|].
  apply (chunk_and_process_note_only demo_env demo_client small_template
           small_content (Some 1%Z) [] (txt "Q: why? A: because"));
    [reflexivity|by vm_compute|exact Hsmall].
Defined.

Lemma constructed_client_request_witness :
  LLMClient_init ascii_db anthropic_environ (txt "ANTHROPIC") (txt "claude")
  = Ok anthropic_client
  /\ exists rq answer key,
      generate_text demo_env anthropic_client (txt "hello") None []
      = (read_response (provider anthropic_client) answer,
         [] ++ [EPost rq answer])
      /\ answer = requests_post demo_env [] rq
      /\ rq_model rq = txt "claude"
      /\ rq_content rq = txt "hello"
      /\ rq_max_tokens rq = default 4000%Z None
      /\ key <> []
      /\ ((str_lower ascii_db (txt "ANTHROPIC") = txt "openai"
           /\ anthropic_environ !! "OPENAI_API_KEY" = Some key
           /\ rq_url rq = "https://api.openai.com/v1/chat/completions"
           /\ rq_headers rq
              = [("Content-Type", txt "application/json");
                 ("Authorization", txt "Bearer " ++ key)])
          \/ (str_lower ascii_db (txt "ANTHROPIC") = txt "anthropic"
              /\ anthropic_environ !! "ANTHROPIC_API_KEY" = Some key
              /\ rq_url rq = "https://api.anthropic.com/v1/messages"
              /\ rq_headers rq
                 = [("Content-Type", txt "application/json");
                    ("x-api-key", key);
                    ("anthropic-version", txt "2023-06-01")])).
Proof.
  split; [reflexivity|].
  apply (constructed_client_request ascii_db demo_env anthropic_environ
           (txt "ANTHROPIC") (txt "claude") anthropic_client).
  reflexivity.
Defined.

Lemma extract_score_ignores_case_witness :
  Forall2 (fun c c' => ascii_tolower c = ascii_tolower c')
    (txt "OVERALL SCORE: 7/10") (txt "overall Score: 7/10")
  /\ extract_score ascii_db (txt "OVERALL SCORE: 7/10")
     = extract_score ascii_db (txt "overall Score: 7/10").
Proof.
  assert (Forall2 (fun c c' => ascii_tolower c = ascii_tolower c')
            (txt "OVERALL SCORE: 7/10") (txt "overall Score: 7/10")) as Hsame.
  { vm_compute. repeat constructor. }
  split; [exact Hsame|].
  exact (extract_score_ignores_case ascii_db _ _ Hsame).
Defined.

Lemma main_without_prompts_witness :
  ReliabilityTester_init ascii_db anthropic_environ (Ok demo_config)
  = Ok ({| config := {| llm_provider := txt "Anthropic";
                        llm_model := txt "claude";
                        report_path := None |};
           llm_client := anthropic_client;
           repeat_count := 5;
           max_tokens_per_call := 12000 |}, AgentWrapper_init None)
  /\ load_yaml no_prompts_env [] (args_prompts_file demo_args) = Ok ∅
  /\ main ascii_db no_prompts_env anthropic_environ (fun _ => true)
       (fun _ => Ok demo_config) (Namespace demo_args) []
     = (Ok 0%Z,
        [] ++ ERead (args_prompts_file demo_args) (Ok ∅)
           :: report_lines
                (txt "Error: No prompts found in the specified file.")).
Proof.
  split_and!; [reflexivity|reflexivity|].
  eapply (main_without_prompts ascii_db no_prompts_env anthropic_environ
            (fun _ => true) (fun _ => Ok demo_config) demo_args []);
    [reflexivity|reflexivity|reflexivity|reflexivity|by left].
Defined.

Lemma tester_init_succeeds_witness :
  (exists provider_arg model_arg advanced count budget,
      cfg_llm_provider demo_config = Some provider_arg
      /\ cfg_llm_model demo_config = Some model_arg
      /\ provider_ready ascii_db anthropic_environ provider_arg
      /\ cfg_advanced demo_config = Some advanced
      /\ adv_repeat_count advanced = Some count
      /\ adv_max_tokens_per_call advanced = Some budget)
  /\ exists tester,
      ReliabilityTester_init ascii_db anthropic_environ (Ok demo_config)
      = Ok tester.
Proof.
  assert (exists provider_arg model_arg advanced count budget,
             cfg_llm_provider demo_config = Some provider_arg
             /\ cfg_llm_model demo_config = Some model_arg
             /\ provider_ready ascii_db anthropic_environ provider_arg
             /\ cfg_advanced demo_config = Some advanced
             /\ adv_repeat_count advanced = Some count
             /\ adv_max_tokens_per_call advanced = Some budget) as Hready.
  { eexists _, _, _, _, _.
    split_and!; [reflexivity|reflexivity| |reflexivity|reflexivity
                |reflexivity].
    right. split; reflexivity. }
  split; [exact Hready|].
  exact (proj2 (proj1 (tester_init_succeeds ascii_db anthropic_environ
                         demo_config)) Hready).
Defined.

Lemma test_prompt_steady_agent_witness :
  demo_prompt !! "text" = Some (txt "What is 2+2?")
  /\ (forall tr0,
        agent_execute_query demo_env tr0 (txt "What is 2+2?")
        = Ok (AgentWrapper_execute_query (txt "What is 2+2?")))
  /\ ((exists visibility_evaluation tr_v,
          evaluate_visibility demo_env demo_tester (txt "What is 2+2?")
            (AgentWrapper_execute_query (txt "What is 2+2?"))
            ([] ++ first_query_events demo_prompt (txt "What is 2+2?")
                     (Ok (AgentWrapper_execute_query (txt "What is 2+2?"))))
          = (Ok visibility_evaluation, tr_v)
          /\ (demo_prompt_run.1, demo_prompt_run.2)
             = after_repeats demo_env demo_tester demo_prompt
                 (txt "What is 2+2?") visibility_evaluation
                 (replicate (Z.to_nat (repeat_count demo_tester))
                    (AgentWrapper_execute_query (txt "What is 2+2?")))
                 (tr_v ++ repeatability_line demo_tester
                       :: runs_events demo_tester (txt "What is 2+2?") 0
                            (replicate (Z.to_nat (repeat_count demo_tester))
                               (AgentWrapper_execute_query
                                  (txt "What is 2+2?")))))
      \/ (exists e,
          demo_prompt_run.1 = Raise e
          /\ evaluate_visibility demo_env demo_tester (txt "What is 2+2?")
               (AgentWrapper_execute_query (txt "What is 2+2?"))
               ([] ++ first_query_events demo_prompt (txt "What is 2+2?")
                        (Ok (AgentWrapper_execute_query
                               (txt "What is 2+2?"))))
             = (Raise e, demo_prompt_run.2))).
Proof.
  split_and!; [by vm_compute|reflexivity|].
  apply (test_prompt_steady_agent demo_env demo_tester demo_prompt
           (txt "What is 2+2?")
           (AgentWrapper_execute_query (txt "What is 2+2?")) []);
    [by vm_compute|reflexivity|apply surjective_pairing].
Defined.

(** ** The requests of one evaluation *)

Lemma chunk_and_process_requests E self t content budget tr res tr' :
  first_missing t content = None ->
  chunk_and_process E self t content budget tr = (res, tr') ->
  exists delta,
    tr' = tr ++ delta /\ Forall is_post delta
    /\ 1 <= length delta <= 1 + length content.
Proof.
  intros Hnone Hrun.
  pose proof (format_first_missing t content) as Hfmt.
  rewrite Hnone in Hfmt. destruct Hfmt as [prompt Hfmt].
  destruct (chunk_and_process_posts _ _ _ _ _ _ _ _ Hrun)
    as (delta & -> & Hposts & Hle & _).
  exists delta. split_and!; [done|done| |done].
  destruct delta; [|simpl; lia].
  rewrite app_nil_r in Hrun. by eapply chunk_and_process_calls in Hrun.
Qed.

(** X15. Each evaluation reaches the judge, whatever the texts it is given:
    a run of [evaluate_visibility] or of [generate_report] leaves from one
    to three requests to the judge in the trace and nothing else, and a run
    of [evaluate_repeatability] on five responses or more from one to
    seven.  The templates always render; an evaluation fails only when an
    exchange with the judge fails. *)
Theorem evaluation_requests E self tr :
  (forall query response res tr',
      evaluate_visibility E self query response tr = (res, tr') ->
      exists delta,
        tr' = tr ++ delta /\ Forall is_post delta /\ 1 <= length delta <= 3)
  /\ (forall visibility_eval repeatability_eval res tr',
        generate_report E self visibility_eval repeatability_eval tr
        = (res, tr') ->
        exists delta,
          tr' = tr ++ delta /\ Forall is_post delta /\ 1 <= length delta <= 3)
  /\ (forall query responses res tr',
        5 <= length responses ->
        evaluate_repeatability E self query responses tr = (res, tr') ->
        exists delta,
          tr' = tr ++ delta /\ Forall is_post delta /\ 1 <= length delta <= 7).
Proof.
  split_and!.
  - intros query response res tr' Hrun.
    by apply chunk_and_process_requests in Hrun.
  - intros visibility_eval repeatability_eval res tr' Hrun.
    by apply chunk_and_process_requests in Hrun.
  - intros query responses res tr' Hlen Hrun.
    destruct responses as [|r1 [|r2 [|r3 [|r4 [|r5 rest]]]]];
      simpl in Hlen; try lia.
    rewrite evaluate_repeatability_five in Hrun.
    by apply chunk_and_process_requests in Hrun.
Qed.

Lemma evaluation_requests_witness :
  5 <= length (replicate 5 (txt "four"))
  /\ exists delta,
      (evaluate_repeatability demo_env demo_tester (txt "What is 2+2?")
         (replicate 5 (txt "four")) []).2 = [] ++ delta
      /\ Forall is_post delta /\ 1 <= length delta <= 7.
Proof.
  split; [simpl; lia|].
  apply (proj2 (proj2 (evaluation_requests demo_env demo_tester []))
           (txt "What is 2+2?") (replicate 5 (txt "four"))
           (evaluate_repeatability demo_env demo_tester (txt "What is 2+2?")
              (replicate 5 (txt "four")) []).1);
    [simpl; lia|apply surjective_pairing].
Defined.
